(** * Mosquito trajectory playback: a shallow embedding of [simulation.js]
    (the four-stream precomputing player) and of the single-stream player.

    JavaScript numbers are modelled by their exact values: a finite number
    is the rational it denotes, and [NaN] and the two infinities are kept
    apart, because the code's behaviour on them differs ([===], [Set],
    [sort] and [a - b] all treat [NaN] specially).  Rounding to binary64
    is not modelled.  Objects used as records ([row], [simulations]) are
    finite maps from property names to values; a missing property reads
    as [undefined], modelled by [None]. *)

From Stdlib Require Import QArith Qround Qabs Lqa ZArith Ascii String List Sorted.
From stdpp Require Import gmap strings list fin_maps.
Close Scope Q_scope.
Open Scope string_scope.
#[local] Set Warnings "-clear-no-such-hyp".

(** ** Numbers and values *)

Inductive number :=
| NaN
| NegInf
| Fin (q : Q)
| PosInf.

(** A JavaScript value that is either a number or [undefined]. *)
Abbreviation value := (option number).

(** [a === b] on numbers. *)
Definition numStrictEq (a b : number) : bool :=
  match a, b with
  | Fin p, Fin q => Qeq_bool p q
  | NegInf, NegInf | PosInf, PosInf => true
  | _, _ => false
  end.

(** [a === b] on values: [undefined === undefined] holds. *)
Definition strictEq (a b : value) : bool :=
  match a, b with
  | None, None => true
  | Some x, Some y => numStrictEq x y
  | _, _ => false
  end.

(** SameValueZero, the equality of [Set]: as [===], but [NaN] equals [NaN]. *)
Definition sameValueZero (a b : value) : bool :=
  match a, b with
  | Some NaN, Some NaN => true
  | _, _ => strictEq a b
  end.

(** [a - b]. *)
Definition numSub (a b : number) : number :=
  match a, b with
  | NaN, _ | _, NaN => NaN
  | Fin p, Fin q => Fin (p - q)
  | PosInf, PosInf | NegInf, NegInf => NaN
  | PosInf, _ | _, NegInf => PosInf
  | NegInf, _ | _, PosInf => NegInf
  end.

(** [a < b]; every comparison with [NaN] is false. *)
Definition numLt (a b : number) : bool :=
  match a, b with
  | NaN, _ | _, NaN => false
  | Fin p, Fin q => negb (Qle_bool q p)
  | NegInf, NegInf | PosInf, PosInf => false
  | NegInf, _ | _, PosInf => true
  | PosInf, _ | _, NegInf => false
  end.

(** [a < b] on values: [undefined] converts to [NaN]. *)
Definition valueLt (a b : value) : bool :=
  match a, b with
  | Some x, Some y => numLt x y
  | _, _ => false
  end.

Definition isNumeric (v : value) : bool :=
  match v with
  | Some NaN | None => false
  | Some _ => true
  end.

(** ** Strings *)

(** The ASCII part of WhiteSpace and LineTerminator. *)
Definition isWhiteSpace (c : ascii) : bool :=
  let n := nat_of_ascii c in
  (n =? 32)%nat || ((9 <=? n)%nat && (n <=? 13)%nat).

Fixpoint trimStart (s : string) : string :=
  match s with
  | String c s' => if isWhiteSpace c then trimStart s' else s
  | EmptyString => EmptyString
  end.

Fixpoint trimEnd (s : string) : string :=
  match s with
  | String c s' =>
      match trimEnd s' with
      | EmptyString => if isWhiteSpace c then EmptyString else String c EmptyString
      | t => String c t
      end
  | EmptyString => EmptyString
  end.

(** [s.trim()]. *)
Definition trim (s : string) : string := trimEnd (trimStart s).

(** [s.split(sep)] for a one-character separator: never empty. *)
Fixpoint split (sep : ascii) (s : string) : list string :=
  match s with
  | EmptyString => [EmptyString]
  | String c s' =>
      if Ascii.eqb c sep then EmptyString :: split sep s'
      else match split sep s' with
           | w :: ws => String c w :: ws
           | [] => [String c EmptyString]
           end
  end.

(** ** [parseFloat]

    The longest prefix of the input, after leading white space, that is a
    StrDecimalLiteral: an optional sign, then [Infinity] or decimal digits
    with an optional fraction and an optional exponent.  No such prefix
    gives [NaN]. *)

Definition isDigit (c : ascii) : bool :=
  let n := nat_of_ascii c in (48 <=? n)%nat && (n <=? 57)%nat.

Fixpoint takeDigits (s : string) : list ascii * string :=
  match s with
  | String c s' =>
      if isDigit c then let '(ds, r) := takeDigits s' in (c :: ds, r)
      else ([], s)
  | EmptyString => ([], EmptyString)
  end.

Definition digitsValue (ds : list ascii) : Z :=
  fold_left (fun acc c => (10 * acc + (Z.of_nat (nat_of_ascii c) - 48))%Z) ds 0%Z.

(** The exponent part, when one can be read: [e] or [E], an optional sign
    and at least one digit. *)
Definition parseExponent (s : string) : Z :=
  match s with
  | String c s' =>
      if Ascii.eqb c "e" || Ascii.eqb c "E" then
        match s' with
        | String sg s'' =>
            if Ascii.eqb sg "-" then
              match takeDigits s'' with
              | ([], _) => 0%Z
              | (ds, _) => (- digitsValue ds)%Z
              end
            else if Ascii.eqb sg "+" then digitsValue (takeDigits s'').1
            else digitsValue (takeDigits s').1
        | EmptyString => 0%Z
        end
      else 0%Z
  | EmptyString => 0%Z
  end.

Definition decimalValue (mantissa exponent : Z) : Q :=
  Qred (inject_Z mantissa * Qpower (10 # 1) exponent).

Definition parseUnsigned (s : string) : number :=
  if String.prefix "Infinity" s then PosInf
  else
    let '(ip, r1) := takeDigits s in
    match r1 with
    | String "." r2 =>
        let '(fp, r3) := takeDigits r2 in
        match ip, fp with
        | [], [] => NaN
        | _, _ =>
            Fin (decimalValue (digitsValue (ip ++ fp))
                   (parseExponent r3 - Z.of_nat (length fp)))
        end
    | _ =>
        match ip with
        | [] => NaN
        | _ => Fin (decimalValue (digitsValue ip) (parseExponent r1))
        end
    end.

Definition numNeg (a : number) : number :=
  match a with
  | NaN => NaN
  | NegInf => PosInf
  | PosInf => NegInf
  | Fin q => Fin (Qred (- q))
  end.

Definition parseFloat (s : string) : number :=
  match trimStart s with
  | String "-" r => numNeg (parseUnsigned r)
  | String "+" r => parseUnsigned r
  | t => parseUnsigned t
  end.

(** [parseFloat(values[index])]: an index past the end of [values] reads
    [undefined], which [parseFloat] first converts to the string
    ["undefined"]. *)
Definition parseFloatArg (v : option string) : number :=
  match v with
  | Some s => parseFloat s
  | None => parseFloat "undefined"
  end.

(** ** [parseCSV] *)

(** One parsed line: an object with one numeric property per header. *)
Abbreviation row := (gmap string number).

(** [row[header] = v] on an object created by [{}]: the update of a finite
    map of own properties, except for the name [__proto__].  That name is
    an accessor of [Object.prototype]; assigning a number to it calls the
    setter, which ignores what is neither an object nor [null], and the
    object gets no property. *)
Definition assignProperty (header : string) (v : number) (r : row) : row :=
  if String.eqb header "__proto__" then r else <[header := v]> r.

(** [headers.forEach((header, index) => { row[header] = parseFloat(values[index]); })],
    started at position [index]. *)
Fixpoint forEachHeader (index : nat) (headers : list string)
    (values : list string) (r : row) : row :=
  match headers with
  | [] => r
  | header :: rest =>
      forEachHeader (S index) rest values
        (assignProperty header (parseFloatArg (values !! index)) r)
  end.

Definition parseLine (headers : list string) (line : string) : row :=
  let values := split "," line in
  forEachHeader 0 headers values ∅.

(** [None] stands for the TypeError that [lines[0].split] would raise if
    [lines[0]] were [undefined]. *)
Definition parseCSV (csvText : string) : option (list row) :=
  let lines := split "010" (trim csvText) in
  match lines !! 0%nat with
  | None => None
  | Some first =>
      let headers := split "," first in
      Some (map (parseLine headers) (drop 1 lines))
  end.

(** ** Timeline extraction ([loadData], the line that fills [timePoints]) *)

(** [[...new Set(xs)]]: the first occurrence of each value is kept, in
    order, under SameValueZero. *)
Fixpoint setOf (seen : list value) (xs : list value) : list value :=
  match xs with
  | [] => []
  | x :: rest =>
      if existsb (sameValueZero x) seen then setOf seen rest
      else x :: setOf (x :: seen) rest
  end.

(** The comparator [(a, b) => a - b], read as [sort] reads it: only a
    result above zero moves [a] behind [b]; [NaN] counts as zero. *)
Definition isPositive (a : number) : bool :=
  match a with
  | PosInf => true
  | Fin q => negb (Qle_bool q 0)
  | _ => false
  end.

Definition compareAfter (a b : number) : bool := isPositive (numSub a b).

Fixpoint insertSorted (x : number) (l : list number) : list number :=
  match l with
  | [] => [x]
  | y :: l' => if compareAfter x y then y :: insertSorted x l' else x :: l
  end.

(** [xs.sort((a, b) => a - b)]: [undefined] entries go to the end without
    being compared; the others are ordered by a stable insertion sort.
    (For an array holding [NaN] the comparator is not consistent and the
    language leaves the order to the engine.) *)
Definition sortNumeric (xs : list value) : list value :=
  let nums := omap id xs in
  let undefs := filter (fun v => v = None) xs in
  (Some <$> foldr insertSorted [] nums) ++ undefs.

Definition timeOf (r : row) : value := r !! "time".
Definition trajectoryIdOf (r : row) : value := r !! "trajectory_id".

Definition extractTimePoints (parsedData : list row) : list value :=
  sortNumeric (setOf [] (map timeOf parsedData)).

(** ** Trail lookup ([getTrailData]) *)

(** [xs.indexOf(v)], with strict equality; [-1] when absent. *)
Fixpoint indexOfFrom (index : Z) (xs : list value) (v : value) : Z :=
  match xs with
  | [] => (-1)%Z
  | x :: rest => if strictEq x v then index else indexOfFrom (index + 1) rest v
  end.

Definition indexOf (xs : list value) (v : value) : Z := indexOfFrom 0 xs v.

(** [xs[k]] for an integer [k]: [undefined] outside the array. *)
Definition valueAt (xs : list value) (k : Z) : value :=
  if (k <? 0)%Z then None else mjoin (xs !! Z.to_nat k).

Definition sameTrajectoryAt (currentMosquito : row) (prevTime : value) (r : row) : bool :=
  strictEq (trajectoryIdOf r) (trajectoryIdOf currentMosquito)
  && strictEq (timeOf r) prevTime.

(** The body of the [for] loop of [getTrailData], run for the successive
    values [offsets] of the loop variable [i]; [break] ends the scan. *)
Fixpoint scanTrail (offsets : list Z) (timeIndex : Z) (currentMosquito : row)
    (timePoints : list value) (mosquitoData : list row) : list row :=
  match offsets with
  | [] => []
  | i :: rest =>
      let prevTimeIndex := (timeIndex - i)%Z in
      if (prevTimeIndex <? 0)%Z then []
      else
        let prevTime := valueAt timePoints prevTimeIndex in
        match List.find (sameTrajectoryAt currentMosquito prevTime) mosquitoData with
        | Some prevPosition =>
            prevPosition :: scanTrail rest timeIndex currentMosquito timePoints mosquitoData
        | None => scanTrail rest timeIndex currentMosquito timePoints mosquitoData
        end
  end.

Definition TRAIL_LENGTH : Z := 5.

(** The values of [i] in [for (let i = 3; i <= TRAIL_LENGTH + 2; i++)]. *)
Definition trailOffsets : list Z := seqZ 3 (TRAIL_LENGTH + 2 - 3 + 1).

(** ** Canvases and frames *)

(** A precomputed frame, described by what was composed on the offscreen
    canvas before [toDataURL]: each mosquito of the tick with its trail,
    and the time of the label. *)
Record Image := {
  frameMosquitoes : list (row * list row);
  frameTime : number
}.

Inductive message :=
| MsgLoading (title : string)
| MsgPrecomputing (progress : Z)
| MsgError (title : string)
| MsgCheckConsole
| MsgMakeSure (file : string).

Inductive drawn :=
| FillText (msg : message) (x y : Z) (style font : string)
| DrawImage (img : Image).

(** A 2D context: its current fill style and font, and what is on the
    canvas since it was last cleared. *)
Record Context := {
  fillStyle : string;
  font : string;
  surface : list drawn
}.

Definition setFillStyle (style : string) (c : Context) : Context :=
  {| fillStyle := style; font := font c; surface := surface c |}.
Definition setFont (f : string) (c : Context) : Context :=
  {| fillStyle := fillStyle c; font := f; surface := surface c |}.
(** [ctx.clearRect(0, 0, ctx.canvas.width, ctx.canvas.height)]. *)
Definition clearRect (c : Context) : Context :=
  {| fillStyle := fillStyle c; font := font c; surface := [] |}.
Definition fillText (msg : message) (x y : Z) (c : Context) : Context :=
  {| fillStyle := fillStyle c; font := font c;
     surface := surface c ++ [FillText msg x y (fillStyle c) (font c)] |}.
(** [ctx.drawImage(img, 0, 0)]. *)
Definition drawImage (img : Image) (c : Context) : Context :=
  {| fillStyle := fillStyle c; font := font c;
     surface := surface c ++ [DrawImage img] |}.

(** ** Streams and the global state *)

(** A tick index: an integer, or [NaN] (what [% 0] gives). *)
Inductive tick :=
| Tick (z : Z)
| TickNaN.

(** [(t + 1) % len]; [%] is the truncated remainder. *)
Definition nextTick (t : tick) (len : nat) : tick :=
  match t, len with
  | Tick z, S _ => Tick (Z.rem (z + 1) (Z.of_nat len))
  | _, _ => TickNaN
  end.

(** [frames[k]] in an array that may have holes. *)
Definition frameAtIndex (frames : list (option Image)) (k : nat) : option Image :=
  mjoin (frames !! k).

Definition frameAt (frames : list (option Image)) (t : tick) : option Image :=
  match t with
  | Tick z => if (z <? 0)%Z then None else frameAtIndex frames (Z.to_nat z)
  | TickNaN => None
  end.

(** [frames[k] = img]: past the end the array grows, leaving holes. *)
Definition storeFrame (frames : list (option Image)) (k : nat) (img : Image)
    : list (option Image) :=
  if (k <? length frames)%nat then <[k := Some img]> frames
  else frames ++ replicate (k - length frames) None ++ [Some img].

Record Sim := {
  ctx : Context;
  mosquitoData : list row;
  timePoints : list value;
  currentTimeIndex : tick;
  precomputedFrames : list (option Image);
  isPrecomputing : bool;
  precomputeProgress : Z;
  isReady : bool
}.

Definition withCtx (c : Context) (s : Sim) : Sim :=
  {| ctx := c; mosquitoData := mosquitoData s; timePoints := timePoints s;
     currentTimeIndex := currentTimeIndex s;
     precomputedFrames := precomputedFrames s;
     isPrecomputing := isPrecomputing s;
     precomputeProgress := precomputeProgress s; isReady := isReady s |}.

Definition withCurrentTimeIndex (t : tick) (s : Sim) : Sim :=
  {| ctx := ctx s; mosquitoData := mosquitoData s; timePoints := timePoints s;
     currentTimeIndex := t;
     precomputedFrames := precomputedFrames s;
     isPrecomputing := isPrecomputing s;
     precomputeProgress := precomputeProgress s; isReady := isReady s |}.

Definition withData (data : list row) (tp : list value) (s : Sim) : Sim :=
  {| ctx := ctx s; mosquitoData := data; timePoints := tp;
     currentTimeIndex := currentTimeIndex s;
     precomputedFrames := precomputedFrames s;
     isPrecomputing := isPrecomputing s;
     precomputeProgress := precomputeProgress s; isReady := isReady s |}.

Definition withFrames (frames : list (option Image)) (s : Sim) : Sim :=
  {| ctx := ctx s; mosquitoData := mosquitoData s; timePoints := timePoints s;
     currentTimeIndex := currentTimeIndex s;
     precomputedFrames := frames;
     isPrecomputing := isPrecomputing s;
     precomputeProgress := precomputeProgress s; isReady := isReady s |}.

Definition withProgress (precomputing : bool) (progress : Z) (ready : bool)
    (s : Sim) : Sim :=
  {| ctx := ctx s; mosquitoData := mosquitoData s; timePoints := timePoints s;
     currentTimeIndex := currentTimeIndex s;
     precomputedFrames := precomputedFrames s;
     isPrecomputing := precomputing;
     precomputeProgress := progress; isReady := ready |}.

(** [getTrailData(currentMosquito, sim)]. *)
Definition getTrailData (currentMosquito : row) (sim : Sim) : list row :=
  let timeIndex := indexOf (timePoints sim) (timeOf currentMosquito) in
  scanTrail trailOffsets timeIndex currentMosquito (timePoints sim) (mosquitoData sim).

Record Dataset := {
  id : string;
  title : string;
  file : string
}.

Definition noneDataset : Dataset :=
  {| id := "none"; title := "Free Flight"; file := "./data/trajectories_none.csv" |}.
Definition co2Dataset : Dataset :=
  {| id := "co2"; title := "CO₂"; file := "./data/trajectories_co2.csv" |}.
Definition visualDataset : Dataset :=
  {| id := "visual"; title := "Visual Cue"; file := "./data/trajectories_visual.csv" |}.
Definition visualco2Dataset : Dataset :=
  {| id := "visualco2"; title := "Visual + CO₂";
     file := "./data/trajectories_visualco2.csv" |}.

Definition datasets : list Dataset :=
  [noneDataset; co2Dataset; visualDataset; visualco2Dataset].

Record State := {
  simulations : gmap string Sim;
  isPlaying : bool;
  lastFrameTime : Q;
  loadedDatasets : Z;
  precomputedDatasets : Z;
  totalDatasetsToLoad : Z;
  animationStarted : bool;
  playPauseText : string
}.

Definition withSimulations (sims : gmap string Sim) (st : State) : State :=
  {| simulations := sims; isPlaying := isPlaying st;
     lastFrameTime := lastFrameTime st; loadedDatasets := loadedDatasets st;
     precomputedDatasets := precomputedDatasets st;
     totalDatasetsToLoad := totalDatasetsToLoad st;
     animationStarted := animationStarted st;
     playPauseText := playPauseText st |}.

Definition withPlaying (playing : bool) (text : string) (st : State) : State :=
  {| simulations := simulations st; isPlaying := playing;
     lastFrameTime := lastFrameTime st; loadedDatasets := loadedDatasets st;
     precomputedDatasets := precomputedDatasets st;
     totalDatasetsToLoad := totalDatasetsToLoad st;
     animationStarted := animationStarted st;
     playPauseText := text |}.

Definition withLastFrameTime (t : Q) (st : State) : State :=
  {| simulations := simulations st; isPlaying := isPlaying st;
     lastFrameTime := t; loadedDatasets := loadedDatasets st;
     precomputedDatasets := precomputedDatasets st;
     totalDatasetsToLoad := totalDatasetsToLoad st;
     animationStarted := animationStarted st;
     playPauseText := playPauseText st |}.

Definition withPrecomputed (n : Z) (st : State) : State :=
  {| simulations := simulations st; isPlaying := isPlaying st;
     lastFrameTime := lastFrameTime st; loadedDatasets := loadedDatasets st;
     precomputedDatasets := n;
     totalDatasetsToLoad := totalDatasetsToLoad st;
     animationStarted := animationStarted st;
     playPauseText := playPauseText st |}.

Definition withLoaded (n : Z) (started : bool) (st : State) : State :=
  {| simulations := simulations st; isPlaying := isPlaying st;
     lastFrameTime := lastFrameTime st; loadedDatasets := n;
     precomputedDatasets := precomputedDatasets st;
     totalDatasetsToLoad := totalDatasetsToLoad st;
     animationStarted := started;
     playPauseText := playPauseText st |}.

(** ** Start-up ([initAllSimulations] and the first lines of [loadData]) *)

Definition FPS : Q := 50.
Definition FRAME_INTERVAL : Q := (1000 / FPS)%Q.
Definition chunkSize : nat := 10.

(** The state left by the top-level script; [label] is the text the page
    gives the play/pause button. *)
Definition initialState (label : string) : State :=
  {| simulations := ∅; isPlaying := false; lastFrameTime := 0;
     loadedDatasets := 0; precomputedDatasets := 0;
     totalDatasetsToLoad := Z.of_nat (length datasets);
     animationStarted := false; playPauseText := label |}.

(** A context as [getContext('2d')] returns it on a blank canvas. *)
Definition freshContext : Context :=
  {| fillStyle := "#000000"; font := "10px sans-serif"; surface := [] |}.

Definition newSim : Sim :=
  {| ctx := freshContext; mosquitoData := []; timePoints := [];
     currentTimeIndex := Tick 0; precomputedFrames := [];
     isPrecomputing := false; precomputeProgress := 0; isReady := false |}.

Definition blackText (msg : message) (x y : Z) (c : Context) : Context :=
  fillText msg x y (setFont "16px Arial" (setFillStyle "black" c)).

(** [loadData] up to its first [await]. *)
Definition loadDataStart (dataset : Dataset) (sim : Sim) : Sim :=
  withCtx (blackText (MsgLoading (title dataset)) 20 50 (ctx sim)) sim.

Definition initAllSimulations (st : State) : State :=
  foldl (fun st dataset =>
           withSimulations
             (<[id dataset := loadDataStart dataset newSim]> (simulations st)) st)
        st datasets.

(** The [catch] block of [loadData]. *)
Definition loadDataError (dataset : Dataset) (errorMessage : string) (sim : Sim) : Sim :=
  let c1 := fillText (MsgError errorMessage) 20 50
              (setFont "16px Arial" (setFillStyle "red" (ctx sim))) in
  let c2 := fillText MsgCheckConsole 20 80 c1 in
  withCtx (fillText (MsgMakeSure (file dataset)) 20 110 c2) sim.

(** ** Frame precomputation ([precomputeFrames]) *)

(** [precomputeFrames] up to the [for] loop. *)
Definition precomputeStart (sim : Sim) : Sim :=
  let sim1 := withProgress true 0 (isReady sim) sim in
  withCtx (blackText (MsgPrecomputing 0) 20 50 (ctx sim1)) sim1.

(** What one pass of the inner loop composes on the offscreen canvas. *)
Definition renderFrame (sim : Sim) (time : number) : Image :=
  let currentMosquitoes :=
    List.filter (fun r => strictEq (timeOf r) (Some time)) (mosquitoData sim) in
  {| frameMosquitoes := map (fun mosquito => (mosquito, getTrailData mosquito sim))
                            currentMosquitoes;
     frameTime := time |}.

(** The inner loop over [j]; the flag tells that [time.toFixed] raised a
    TypeError because [time] was [undefined]. *)
Fixpoint precomputeChunkFrames (js : list nat) (i : nat) (sim : Sim) : Sim * bool :=
  match js with
  | [] => (sim, false)
  | j :: rest =>
      let frameIndex := (i + j)%nat in
      if (frameIndex <? length (timePoints sim))%nat then
        match mjoin (timePoints sim !! frameIndex) with
        | None => (sim, true)
        | Some time =>
            precomputeChunkFrames rest i
              (withFrames (storeFrame (precomputedFrames sim) frameIndex
                             (renderFrame sim time)) sim)
        end
      else (sim, false)
  end.

(** [Math.round(x)] on a finite number. *)
Definition mathRound (x : Q) : Z := Qfloor (x + (1 # 2))%Q.

Definition progressAfter (i len : nat) : Z :=
  Z.min 100
    (mathRound (inject_Z (Z.of_nat (i + chunkSize)) / inject_Z (Z.of_nat len) * 100)%Q).

(** The lines after the inner loop, in one turn of the outer loop. *)
Definition precomputeReport (i : nat) (sim : Sim) : Sim :=
  let progress := progressAfter i (length (timePoints sim)) in
  let sim1 := withProgress (isPrecomputing sim) progress (isReady sim) sim in
  withCtx (blackText (MsgPrecomputing progress) 20 50 (clearRect (ctx sim1))) sim1.

(** [precomputeFrames] after the outer loop, on the stream. *)
Definition finishSim (sim : Sim) : Sim :=
  let sim1 := withProgress false (precomputeProgress sim) true sim in
  let c := clearRect (ctx sim1) in
  withCtx (match frameAtIndex (precomputedFrames sim1) 0 with
           | Some img => drawImage img c
           | None => c
           end) sim1.

(** [precomputeFrames] after the outer loop, on the counters. *)
Definition markPrecomputed (st : State) : State :=
  let st1 := withPrecomputed (precomputedDatasets st + 1) st in
  if (precomputedDatasets st1 =? totalDatasetsToLoad st1)%Z
  then withPlaying true "Pause" st1
  else st1.

(** [loadData] after [await precomputeFrames(dataset.id)]. *)
Definition loadDataDone (st : State) : State :=
  let n := (loadedDatasets st + 1)%Z in
  if (n =? totalDatasetsToLoad st)%Z && negb (animationStarted st)
  then withLoaded n true st
  else withLoaded n (animationStarted st) st.

Definition setSim (datasetId : string) (sim : Sim) (st : State) : State :=
  withSimulations (<[datasetId := sim]> (simulations st)) st.

Definition precomputeFinish (datasetId : string) (sim : Sim) (st : State) : State :=
  loadDataDone (markPrecomputed (setSim datasetId (finishSim sim) st)).

Definition toFixedError : string :=
  "Cannot read properties of undefined (reading 'toFixed')".

(** One turn of the outer loop of [precomputeFrames], from the timer that
    ends [await new Promise(...)] to the next [await] or to the end of
    [loadData]. *)
Definition precomputeChunk (dataset : Dataset) (i : nat) (sim : Sim) (st : State) : State :=
  match precomputeChunkFrames (seq 0 chunkSize) i sim with
  | (sim1, true) => setSim (id dataset) (loadDataError dataset toFixedError sim1) st
  | (sim1, false) =>
      let sim2 := precomputeReport i sim1 in
      if (i + chunkSize <? length (timePoints sim2))%nat
      then setSim (id dataset) sim2 st
      else precomputeFinish (id dataset) sim2 st
  end.

(** [loadData] from the arrival of the file's text to the next [await]. *)
Definition loadDataFetched (dataset : Dataset) (csvText : string) (sim : Sim)
    (st : State) : State :=
  match parseCSV csvText with
  | None =>
      setSim (id dataset)
        (loadDataError dataset "Cannot read properties of undefined (reading 'split')" sim) st
  | Some parsedData =>
      let sim1 := withData parsedData (extractTimePoints parsedData) sim in
      let sim2 := precomputeStart sim1 in
      if (0 <? length (timePoints sim2))%nat
      then setSim (id dataset) sim2 st
      else precomputeFinish (id dataset) sim2 st
  end.

(** ** The animation loop ([animateAll]) *)

Definition Qtruncate (x : Q) : Z := Z.quot (Qnum x) (Z.pos (Qden x)).

(** [a % b] for a divisor other than zero. *)
Definition remainder (a b : Q) : Q := (a - b * inject_Z (Qtruncate (a / b)))%Q.

Definition advanceSim (sim : Sim) : Sim :=
  if (0 <? length (precomputedFrames sim))%nat then
    let c := clearRect (ctx sim) in
    let c1 := match frameAt (precomputedFrames sim) (currentTimeIndex sim) with
              | Some img => drawImage img c
              | None => c
              end in
    withCurrentTimeIndex
      (nextTick (currentTimeIndex sim) (length (timePoints sim)))
      (withCtx c1 sim)
  else sim.

Definition showProgress (sim : Sim) : Sim :=
  if isPrecomputing sim
  then withCtx (blackText (MsgPrecomputing (precomputeProgress sim)) 20 50
                  (clearRect (ctx sim))) sim
  else sim.

Definition allReady (sims : gmap string Sim) : bool :=
  bool_decide (map_Forall (fun _ sim => isReady sim = true) sims).

(** [if (!lastFrameTime) lastFrameTime = timestamp;]: zero is the only
    falsy time. *)
Definition startClock (timestamp : Q) (st : State) : State :=
  if Qeq_bool (lastFrameTime st) 0 then withLastFrameTime timestamp st else st.

(** [deltaTime], as [animateAll] computes it at a wake-up. *)
Definition deltaTimeAt (timestamp : Q) (st : State) : Q :=
  (timestamp - lastFrameTime (startClock timestamp st))%Q.

Definition animateAll (timestamp : Q) (st : State) : State :=
  let st1 := startClock timestamp st in
  let deltaTime := (timestamp - lastFrameTime st1)%Q in
  if isPlaying st1 && allReady (simulations st1) then
    if Qle_bool FRAME_INTERVAL deltaTime then
      withSimulations (advanceSim <$> simulations st1)
        (withLastFrameTime (timestamp - remainder deltaTime FRAME_INTERVAL)%Q st1)
    else st1
  else if negb (allReady (simulations st1)) then
    withSimulations (showProgress <$> simulations st1) st1
  else st1.

(** ** Transport controls (the two click listeners) *)

Definition clickPlayPause (st : State) : State :=
  let playing := negb (isPlaying st) in
  withPlaying playing (if playing then "Pause" else "Play") st.

Definition resetSim (sim : Sim) : Sim :=
  let sim1 := withCurrentTimeIndex (Tick 0) sim in
  if (0 <? length (precomputedFrames sim1))%nat then
    match frameAtIndex (precomputedFrames sim1) 0 with
    | Some img => withCtx (drawImage img (clearRect (ctx sim1))) sim1
    | None => sim1
    end
  else sim1.

Definition clickReset (st : State) : State :=
  withSimulations (resetSim <$> simulations st) st.

(** ** Sessions: the callbacks the browser runs, one at a time *)

Inductive Event :=
| FetchOk (dataset : Dataset) (csvText : string)
| FetchFailed (dataset : Dataset) (errorMessage : string)
| Timer (dataset : Dataset) (i : nat)
| AnimationFrame (timestamp : Q)
| ClickPlayPause
| ClickReset.

(** A callback of a dataset's loading task acts on [simulations[dataset.id]];
    a [Timer] is only pending for a loop index below the timeline length. *)
Definition step (e : Event) (st : State) : State :=
  match e with
  | FetchOk dataset csvText =>
      match simulations st !! id dataset with
      | Some sim => loadDataFetched dataset csvText sim st
      | None => st
      end
  | FetchFailed dataset errorMessage =>
      match simulations st !! id dataset with
      | Some sim => setSim (id dataset) (loadDataError dataset errorMessage sim) st
      | None => st
      end
  | Timer dataset i =>
      match simulations st !! id dataset with
      | Some sim =>
          if (i <? length (timePoints sim))%nat
          then precomputeChunk dataset i sim st else st
      | None => st
      end
  | AnimationFrame timestamp => animateAll timestamp st
  | ClickPlayPause => clickPlayPause st
  | ClickReset => clickReset st
  end.

Definition run (events : list Event) (st : State) : State :=
  foldl (fun st e => step e st) st events.

(** The session's state once the sprite has loaded. *)
Definition startState (label : string) : State :=
  initAllSimulations (initialState label).

(** The event at which the count of precomputed streams reaches the total. *)
Definition reachesTotal (e : Event) (st : State) : bool :=
  negb (precomputedDatasets (step e st) =? precomputedDatasets st)%Z
  && (precomputedDatasets (step e st) =? totalDatasetsToLoad st)%Z.

Fixpoint autoPlayCount (events : list Event) (st : State) : nat :=
  match events with
  | [] => 0
  | e :: rest =>
      ((if reachesTotal e st then 1 else 0) + autoPlayCount rest (step e st))%nat
  end.

Definition isClick (e : Event) : bool :=
  match e with ClickPlayPause => true | _ => false end.

(** ** The single-stream player

    The second player of the repository draws one dataset directly at each
    tick, without precomputed frames.  Its canvas calls are left out here;
    an exception they would meet ([toFixed] on [undefined]) is kept. *)

Module Single.

Definition TRAIL_LENGTH : Z := 10.

(** The values of [i] in [for (let i = 1; i <= TRAIL_LENGTH; i++)]. *)
Definition trailOffsets : list Z := seqZ 1 (TRAIL_LENGTH - 1 + 1).

Record State := {
  mosquitoData : list row;
  timePoints : list value;
  currentTimeIndex : tick;
  isPlaying : bool;
  lastFrameTime : Q;
  lastDistributionUpdateTime : value
}.

Definition initialState : State :=
  {| mosquitoData := []; timePoints := []; currentTimeIndex := Tick 0;
     isPlaying := true; lastFrameTime := 0;
     lastDistributionUpdateTime := Some (Fin 0) |}.

Definition getTrailData (currentMosquito : row) (st : State) : list row :=
  let timeIndex := indexOf (timePoints st) (timeOf currentMosquito) in
  scanTrail trailOffsets timeIndex currentMosquito (timePoints st) (mosquitoData st).

(** [undefined] converts to [NaN] in arithmetic. *)
Definition toNumber (v : value) : number := default NaN v.

(** [a / d] for a finite [d] above zero. *)
Definition divideBy (d : Q) (a : number) : number :=
  match a with
  | Fin q => Fin (q / d)
  | other => other
  end.

Definition numRound (a : number) : number :=
  match a with
  | Fin q => Fin (inject_Z (mathRound q))
  | other => other
  end.

Definition numAbs (a : number) : number :=
  match a with
  | Fin q => Fin (Qabs q)
  | NegInf => PosInf
  | other => other
  end.

(** [Math.abs(row.time / 0.02 - Math.round(row.time / 0.02)) < 0.0001]. *)
Definition onGrid (r : row) : bool :=
  let scaled := divideBy (2 # 100) (toNumber (timeOf r)) in
  numLt (numAbs (numSub scaled (numRound scaled))) (Fin (1 # 10000)).

(** [init] from the arrival of the file's text on. *)
Definition loaded (csvText : string) (st : State) : State :=
  match parseCSV csvText with
  | None => st
  | Some parsedData =>
      let data := List.filter onGrid parsedData in
      {| mosquitoData := data; timePoints := extractTimePoints data;
         currentTimeIndex := currentTimeIndex st; isPlaying := isPlaying st;
         lastFrameTime := lastFrameTime st;
         lastDistributionUpdateTime := lastDistributionUpdateTime st |}
  end.

Definition tickValue (tp : list value) (t : tick) : value :=
  match t with
  | Tick z => valueAt tp z
  | TickNaN => None
  end.

Inductive outcome :=
| Returned (st : State)
| Threw (st : State).

Definition withIndex (t : tick) (st : State) : State :=
  {| mosquitoData := mosquitoData st; timePoints := timePoints st;
     currentTimeIndex := t; isPlaying := isPlaying st;
     lastFrameTime := lastFrameTime st;
     lastDistributionUpdateTime := lastDistributionUpdateTime st |}.

Definition withLastFrameTime (t : Q) (st : State) : State :=
  {| mosquitoData := mosquitoData st; timePoints := timePoints st;
     currentTimeIndex := currentTimeIndex st; isPlaying := isPlaying st;
     lastFrameTime := t;
     lastDistributionUpdateTime := lastDistributionUpdateTime st |}.

Definition withDistributionTime (v : value) (st : State) : State :=
  {| mosquitoData := mosquitoData st; timePoints := timePoints st;
     currentTimeIndex := currentTimeIndex st; isPlaying := isPlaying st;
     lastFrameTime := lastFrameTime st;
     lastDistributionUpdateTime := v |}.

(** [updateSimulation]: [currentTime.toFixed(2)] raises a TypeError when
    the index is outside the timeline. *)
Definition updateSimulation (st : State) : outcome :=
  match tickValue (timePoints st) (currentTimeIndex st) with
  | None => Threw st
  | Some _ =>
      Returned (withIndex (nextTick (currentTimeIndex st) (length (timePoints st))) st)
  end.

Definition DISTRIBUTION_UPDATE_INTERVAL : Q := 1 # 10.

(** [a >= b]. *)
Definition numGe (a b : number) : bool :=
  match a, b with
  | NaN, _ | _, NaN => false
  | _, _ => negb (numLt a b)
  end.

Definition animate (timestamp : Q) (st : State) : outcome :=
  let st1 := if Qeq_bool (lastFrameTime st) 0
             then withLastFrameTime timestamp st else st in
  let deltaTime := (timestamp - lastFrameTime st1)%Q in
  if isPlaying st1 && Qle_bool FRAME_INTERVAL deltaTime then
    match updateSimulation (withLastFrameTime timestamp st1) with
    | Threw st2 => Threw st2
    | Returned st2 =>
        let currentTime := tickValue (timePoints st2) (currentTimeIndex st2) in
        if numGe (numSub (toNumber currentTime)
                    (toNumber (lastDistributionUpdateTime st2)))
                 (Fin DISTRIBUTION_UPDATE_INTERVAL)
           || strictEq (lastDistributionUpdateTime st2) (Some (Fin 0))
        then match currentTime with
             | None => Threw st2
             | Some _ => Returned (withDistributionTime currentTime st2)
             end
        else Returned st2
    end
  else Returned st1.

Definition clickPlayPause (st : State) : State :=
  {| mosquitoData := mosquitoData st; timePoints := timePoints st;
     currentTimeIndex := currentTimeIndex st; isPlaying := negb (isPlaying st);
     lastFrameTime := lastFrameTime st;
     lastDistributionUpdateTime := lastDistributionUpdateTime st |}.

Definition clickReset (st : State) : State :=
  withDistributionTime (Some (Fin 0)) (withIndex (Tick 0) st).

End Single.

(** ** Properties of timelines *)

(** Each entry is below the next one, as [<] compares them. *)
Definition strictlyAscending (l : list value) : Prop :=
  ∀ k a b, l !! k = Some a → l !! S k = Some b → valueLt a b = true.

(** No two positions hold the same value, as [Set] compares them. *)
Definition distinctValues (l : list value) : Prop :=
  ∀ j k a b, j ≠ k → l !! j = Some a → l !! k = Some b → sameValueZero a b = false.

Definition ltValue (a b : value) : Prop := valueLt a b = true.

Definition differs (a b : value) : Prop := sameValueZero a b = false.

Fixpoint pairwiseDistinct (l : list value) : Prop :=
  match l with
  | [] => True
  | x :: rest => Forall (differs x) rest ∧ pairwiseDistinct rest
  end.

(** What the trail lookup promises, for a trail of at most [trailLength]
    entries that starts [offset] ticks before the current one: the bound
    on the length; each entry is a sample of the stream with the query's
    [trajectory_id] whose time is the timeline's value at a tick [k] no
    later than the current tick minus [offset]; nothing is returned when
    that tick would be below 0, nor when the trajectory has no sample at
    any earlier tick; and within the window a tick without a sample does
    not end the scan: the sample found at any scanned tick is returned. *)
Definition trailSpec (trailLength offset : Z) (offsets : list Z)
    (currentMosquito : row) (tp : list value) (data : list row)
    (trail : list row) : Prop :=
  let timeIndex := indexOf tp (timeOf currentMosquito) in
  (Z.of_nat (length trail) <= trailLength)%Z
  ∧ (∀ p, p ∈ trail →
       p ∈ data
       ∧ strictEq (trajectoryIdOf p) (trajectoryIdOf currentMosquito) = true
       ∧ ∃ k, (0 <= k <= timeIndex - offset)%Z
              ∧ strictEq (timeOf p) (valueAt tp k) = true)
  ∧ ((timeIndex - offset < 0)%Z → trail = [])
  ∧ ((∀ p k, p ∈ data → (0 <= k < timeIndex)%Z →
        strictEq (trajectoryIdOf p) (trajectoryIdOf currentMosquito) = true →
        strictEq (timeOf p) (valueAt tp k) = false) →
     trail = [])
  ∧ (∀ i p, i ∈ offsets → (0 <= timeIndex - i)%Z →
       List.find (sameTrajectoryAt currentMosquito (valueAt tp (timeIndex - i))) data
       = Some p →
       p ∈ trail).

(** A sample with an integer time and trajectory, for the checks below. *)
Definition sampleAt (trajectory t : Z) : row :=
  <["time" := Fin (inject_Z t)]> (<["trajectory_id" := Fin (inject_Z trajectory)]> ∅).

(** The number of play/pause clicks among the events. *)
Definition clicks (events : list Event) : nat :=
  length (List.filter isClick events).

(** ** A small session, for the checks below

    Four files of 4, 4, 2 and 4 ticks; each is fetched and precomputed in
    one chunk, then the animation runs. *)

Definition fourTicks : string :=
  "time,trajectory_id,x,y,vx,vy,speed
0,1,0,0,1,0,1
0.02,1,0.02,0,1,0,1
0.04,1,0.04,0,1,0,1
0.06,1,0.06,0,1,0,1".

Definition twoTicks : string :=
  "time,trajectory_id,x,y,vx,vy,speed
0,1,0,0,1,0,1
0.02,1,0.02,0,1,0,1".

Definition loadingEvents : list Event :=
  [ FetchOk noneDataset fourTicks; FetchOk co2Dataset fourTicks;
    FetchOk visualDataset twoTicks; FetchOk visualco2Dataset fourTicks;
    Timer noneDataset 0; Timer co2Dataset 0; Timer visualDataset 0 ].

(** Three streams are ready, the last one is still precomputing. *)
Definition waitingState : State := run loadingEvents (startState "Play").

(** All four streams are ready. *)
Definition readyState : State := step (Timer visualco2Dataset 0) waitingState.

Definition tickOf (datasetId : string) (st : State) : option tick :=
  currentTimeIndex <$> simulations st !! datasetId.

Definition ticksOf (st : State) : list (option tick) :=
  (fun dataset => tickOf (id dataset) st) <$> datasets.

(** The stream stored under a name. *)
Definition streamOf (datasetId : string) (st : State) : Sim :=
  default newSim (simulations st !! datasetId).

(** Playback was running for one tick and has been paused. *)
Definition pausedState : State :=
  clickPlayPause (run [AnimationFrame 1000; AnimationFrame 1020] readyState).

(** ** Drawing: coordinates, colours and trail markers *)

(** [mapToCanvas], on finite arguments. *)
Definition mapToCanvas (value inMin inMax outMin outMax : Q) : Q :=
  ((value - inMin) / (inMax - inMin) * (outMax - outMin) + outMin)%Q.

Definition MAX_SPEED_COLOR : Q := 15 # 10.

(** [Math.min(a, b)]: [NaN] as soon as one argument is. *)
Definition numMin (a b : number) : number :=
  match a, b with
  | NaN, _ | _, NaN => NaN
  | _, _ => if numLt b a then b else a
  end.

(** [c * a] for a finite [c] above zero. *)
Definition scaleBy (c : Q) (a : number) : number :=
  match a with
  | Fin q => Fin (c * q)
  | other => other
  end.

(** [Math.floor]. *)
Definition numFloor (a : number) : number :=
  match a with
  | Fin q => Fin (inject_Z (Qfloor q))
  | other => other
  end.

(** [getSpeedColor]: the three channels written into [rgb(r, g, b)]. *)
Definition getSpeedColor (speed : value) : number * number * number :=
  let normalizedSpeed :=
    numMin (Single.divideBy MAX_SPEED_COLOR (Single.toNumber speed)) (Fin 1) in
  let r := numFloor (scaleBy 255 normalizedSpeed) in
  let g := numFloor
             (scaleBy 255
                (numSub (Fin 1)
                   (Single.numAbs (numSub (scaleBy 2 normalizedSpeed) (Fin 1))))) in
  let b := numFloor (scaleBy 255 (numSub (Fin 1) normalizedSpeed)) in
  (r, g, b).

(** One circle of a trail: the sample it stands for (its centre is
    [mapToCanvas] of the sample's [x] and [y]), its radius and its colour. *)
Record TrailMarker := {
  markerPosition : row;
  markerSize : Q;
  markerColor : number * number * number
}.

(** [trailData.forEach((position, index) => ...)] of [drawTrail], started
    at position [index], for a size of [largest - index * shrink]; a size
    of zero or less draws nothing. *)
Fixpoint drawTrailFrom (largest shrink : Q) (index : nat) (trailData : list row)
    : list TrailMarker :=
  match trailData with
  | [] => []
  | position :: rest =>
      let size := (largest - inject_Z (Z.of_nat index) * shrink)%Q in
      if Qle_bool size 0 then drawTrailFrom largest shrink (S index) rest
      else {| markerPosition := position; markerSize := size;
              markerColor := getSpeedColor (position !! "speed") |}
           :: drawTrailFrom largest shrink (S index) rest
  end.

(** The circle [drawTrail] draws for the entry at position [index], when
    it draws one. *)
Definition markerAt (largest shrink : Q) (index : nat) (position : row)
    : TrailMarker :=
  {| markerPosition := position;
     markerSize := (largest - inject_Z (Z.of_nat index) * shrink)%Q;
     markerColor := getSpeedColor (position !! "speed") |}.

(** [drawTrail] of the four-stream player: [4 - index * 0.6]. *)
Definition drawTrail (trailData : list row) : list TrailMarker :=
  drawTrailFrom 4 (6 # 10) 0 trailData.

(** [drawTrail] of the single-stream player: [8 - index * 0.7]. *)
Definition singleDrawTrail (trailData : list row) : list TrailMarker :=
  drawTrailFrom 8 (7 # 10) 0 trailData.

(** ** The whole precomputation of one stream *)

(** The frames a finished precomputation holds: for each tick of the
    timeline the frame composed for its time. *)
Definition expectedFrames (sim : Sim) : list (option Image) :=
  (fun v : value => renderFrame sim <$> v) <$> timePoints sim.

(** The values of [i] in [for (let i = 0; i < len; i += chunkSize)]; the
    loop ends within [fuel] turns when [len <= i + fuel]. *)
Fixpoint chunkStartsFrom (fuel i len : nat) : list nat :=
  match fuel with
  | O => []
  | S fuel' =>
      if (i <? len)%nat then i :: chunkStartsFrom fuel' (i + chunkSize) len else []
  end.

(** The timers of one stream's precomputation, in the order they fire. *)
Definition precomputeEvents (dataset : Dataset) (len : nat) : list Event :=
  Timer dataset <$> chunkStartsFrom len 0 len.

(** What a stream [sim0] of state [st0] and the counters have become in
    [st] once its precomputation is done: one frame per tick, in order,
    the stream ready, its canvas showing the first frame. *)
Definition precomputationDone (sim0 : Sim) (st0 st : State) (datasetId : string)
    : Prop :=
  ∃ sim,
    simulations st !! datasetId = Some sim
    ∧ precomputedFrames sim = expectedFrames sim0
    ∧ mosquitoData sim = mosquitoData sim0
    ∧ timePoints sim = timePoints sim0
    ∧ currentTimeIndex sim = currentTimeIndex sim0
    ∧ isReady sim = true
    ∧ isPrecomputing sim = false
    ∧ precomputeProgress sim = 100%Z
    ∧ surface (ctx sim)
      = match frameAtIndex (expectedFrames sim0) 0 with
        | Some img => [DrawImage img]
        | None => []
        end
    ∧ precomputedDatasets st = (precomputedDatasets st0 + 1)%Z
    ∧ loadedDatasets st = (loadedDatasets st0 + 1)%Z.

(** ** Sessions: what every reachable state satisfies *)

Definition isLoadingEvent (e : Event) : bool :=
  match e with
  | FetchOk _ _ | Timer _ _ => true
  | _ => false
  end.

Definition sessionInvariant (label : string) (st : State) : Prop :=
  totalDatasetsToLoad st = 4%Z
  ∧ loadedDatasets st = precomputedDatasets st
  ∧ (0 <= precomputedDatasets st)%Z
  ∧ animationStarted st = (4 <=? loadedDatasets st)%Z
  ∧ dom (simulations st) = list_to_set (id <$> datasets)
  ∧ ((playPauseText st = label ∧ isPlaying st = false)
     ∨ playPauseText st = if isPlaying st then "Pause" else "Play")
  ∧ map_Forall (fun _ sim => (0 <= precomputeProgress sim <= 100)%Z)
      (simulations st).

(** ** The single-stream player: wake-ups in a row, and the density view *)

(** Successive calls of [animate]; an exception ends [requestAnimationFrame]'s
    chain, so nothing runs after it. *)
Fixpoint singleWakeUps (timestamps : list Q) (st : Single.State) : Single.outcome :=
  match timestamps with
  | [] => Single.Returned st
  | timestamp :: rest =>
      match Single.animate timestamp st with
      | Single.Returned st' => singleWakeUps rest st'
      | Single.Threw st' => Single.Threw st'
      end
  end.

(** The index is a tick of the timeline and every tick has a time. *)
Definition singleReady (st : Single.State) : Prop :=
  Forall (fun v : value => v ≠ None) (Single.timePoints st)
  ∧ ∃ z, Single.currentTimeIndex st = Tick z
         ∧ (0 <= z < Z.of_nat (length (Single.timePoints st)))%Z.

(** [a <= b]. *)
Definition numLe (a b : number) : bool :=
  match a, b with
  | NaN, _ | _, NaN => false
  | _, _ => negb (numLt b a)
  end.

Definition DISTRIBUTION_SAMPLE_INTERVAL : Q := 5 # 100.

(** [sampleTimes] of [updateDistribution]. *)
Definition sampleTimes (tp : list value) (currentTime : number) : list value :=
  List.filter
    (fun time : value =>
       numLe (Single.toNumber time) currentTime
       && numLt (numSub currentTime (Fin DISTRIBUTION_SAMPLE_INTERVAL))
            (Single.toNumber time))
    tp.

(** [positions] of [updateDistribution]; [includes] compares as [Set] does. *)
Definition distributionPositions (st : Single.State) (currentTime : number) : list row :=
  List.filter
    (fun r => existsb (sameValueZero (timeOf r))
                (sampleTimes (Single.timePoints st) currentTime))
    (Single.mosquitoData st).

(** * Results *)

(** ** Checks of the string functions on small inputs *)

Example split_keeps_empty_fields :
  split "," "a,,b," = ["a"; ""; "b"; ""] ∧ split "," "" = [""].
Proof. split; reflexivity. Qed.

Example trim_both_ends :
  trim (String "010" " a b " ++ String "013" (String "010" "")) = "a b".
Proof. reflexivity. Qed.

Example parseFloat_samples :
  parseFloat "0.02" = Fin (1 # 50) ∧ parseFloat " -1.5e2x" = Fin (-150 # 1)
  ∧ parseFloat "12abc" = Fin (12 # 1) ∧ parseFloat ".5" = Fin (1 # 2)
  ∧ parseFloat "-Infinity" = NegInf ∧ parseFloat "" = NaN
  ∧ parseFloat "abc" = NaN ∧ parseFloat "-.e3" = NaN.
Proof. repeat split; reflexivity. Qed.

Lemma parseFloat_undefined : parseFloatArg None = NaN.
Proof. reflexivity. Qed.

(** ** [parseCSV] *)










Example parseCSV_unparseable_fields :
  ∃ r1 r2 r3,
    parseCSV (String "010" "time,x" ++ String "010" "3,abc"
              ++ String "010" "" ++ String "010" "1" ++ String "010" "")
    = Some [r1; r2; r3]
    ∧ r1 !! "time" = Some (Fin (3 # 1)) ∧ r1 !! "x" = Some NaN
    ∧ r2 !! "time" = Some NaN ∧ r2 !! "x" = Some NaN
    ∧ r3 !! "time" = Some (Fin (1 # 1)) ∧ r3 !! "x" = Some NaN.
Proof. do 3 eexists. split; [reflexivity|]. repeat split; reflexivity. Qed.

(** ** Order and equality of numbers *)

Lemma Qlt_as_bool (p q : Q) : negb (Qle_bool q p) = true ↔ (p < q)%Q.
Proof.
  rewrite negb_true_iff. split.
  - intros Hb. apply Qnot_le_lt. intros Hle.
    apply Qle_bool_iff in Hle. congruence.
  - intros Hlt. destruct (Qle_bool q p) eqn:Hb; [|done].
    apply Qle_bool_iff in Hb. lra.
Qed.

Lemma Qlt_as_bool_false (p q : Q) : negb (Qle_bool q p) = false ↔ (q <= p)%Q.
Proof. rewrite negb_false_iff. apply Qle_bool_iff. Qed.

Lemma sameValueZero_sym (a b : value) : sameValueZero a b = sameValueZero b a.
Proof.
  destruct a as [[| |p|]|], b as [[| |q|]|]; simpl; try reflexivity.
  apply Qeq_bool_comm.
Qed.

(** The comparator agrees with [<] as long as neither number is [NaN]. *)
Lemma compareAfter_numLt (a b : number) :
  a ≠ NaN → b ≠ NaN → compareAfter a b = numLt b a.
Proof.
  intros Ha Hb. destruct a as [| |p|], b as [| |q|]; try congruence; try reflexivity.
  unfold compareAfter; simpl.
  destruct (negb (Qle_bool p q)) eqn:H1.
  - apply Qlt_as_bool in H1. apply Qlt_as_bool. lra.
  - apply Qlt_as_bool_false in H1. apply Qlt_as_bool_false. lra.
Qed.

Lemma numLt_trans (a b c : number) :
  numLt a b = true → numLt b c = true → numLt a c = true.
Proof.
  destruct a as [| |p|], b as [| |q|], c as [| |r|]; simpl; try congruence.
  rewrite !Qlt_as_bool. lra.
Qed.

Lemma numLt_total (a b : number) :
  a ≠ NaN → b ≠ NaN → sameValueZero (Some a) (Some b) = false →
  numLt a b = false → numLt b a = true.
Proof.
  intros Ha Hb. destruct a as [| |p|], b as [| |q|]; simpl; try congruence.
  intros Hne Hlt. apply Qlt_as_bool_false in Hlt. apply Qlt_as_bool.
  apply Qeq_bool_neq in Hne. destruct (Qlt_le_dec q p) as [|Hle]; [done|].
  exfalso. apply Hne. lra.
Qed.

(** ** The sort *)

Lemma insertSorted_perm (x : number) (l : list number) :
  insertSorted x l ≡ₚ x :: l.
Proof.
  induction l as [|y l IH]; simpl; [done|].
  destruct (compareAfter x y); [|done].
  rewrite IH. apply perm_swap.
Qed.

Lemma insertionSort_perm (l : list number) : foldr insertSorted [] l ≡ₚ l.
Proof.
  induction l as [|x l IH]; simpl; [done|].
  by rewrite insertSorted_perm, IH.
Qed.

Lemma insertSorted_strict (x : number) (l : list number) :
  x ≠ NaN →
  Forall (fun y => y ≠ NaN) l →
  Forall (fun y => differs (Some x) (Some y)) l →
  StronglySorted (fun a b => numLt a b = true) l →
  StronglySorted (fun a b => numLt a b = true) (insertSorted x l).
Proof.
  intros Hx. induction l as [|y l IH]; intros Hnan Hdiff Hsorted; simpl.
  - repeat constructor.
  - inversion Hnan as [|? ? Hy Hnan']; subst.
    inversion Hdiff as [|? ? Hxy Hdiff']; subst.
    inversion Hsorted as [|? ? Hsorted' Hall]; subst.
    rewrite compareAfter_numLt by done.
    destruct (numLt y x) eqn:Hyx.
    + constructor; [by apply IH|].
      rewrite insertSorted_perm. by constructor.
    + assert (numLt x y = true) as Hlt.
      { apply numLt_total; try done.
        unfold differs in Hxy. by rewrite sameValueZero_sym. }
      constructor; [done|]. constructor; [done|].
      eapply Forall_impl; [exact Hall|]. intros z Hz. by eapply numLt_trans.
Qed.

Lemma pairwiseDistinct_perm (l l' : list value) :
  l ≡ₚ l' → pairwiseDistinct l → pairwiseDistinct l'.
Proof.
  induction 1 as [|x l l' Hperm IH|x y l|l l' l'' _ IH1 _ IH2]; simpl.
  - done.
  - intros [Hx Hl]. split; [by rewrite <- Hperm | by apply IH].
  - intros [Hy [Hx Hl]].
    inversion Hy as [|? ? Hyx Hyl]; subst.
    repeat split; try done. constructor; [|done].
    unfold differs in *. by rewrite sameValueZero_sym.
  - intros Hl. by apply IH2, IH1.
Qed.

Lemma pairwiseDistinct_lookup (l : list value) :
  pairwiseDistinct l → distinctValues l.
Proof.
  induction l as [|x l IH]; intros Hd j k a b Hjk Hj Hk; [done|].
  destruct Hd as [Hx Hl].
  rewrite Forall_forall in Hx.
  destruct j as [|j], k as [|k]; simpl in *; simplify_eq.
  - apply Hx. eapply list_elem_of_lookup_2; eauto.
  - rewrite sameValueZero_sym. apply Hx.
    eapply list_elem_of_lookup_2; eauto.
  - eapply (IH Hl j k); eauto.
Qed.

Lemma setOf_distinct (xs : list value) :
  ∀ seen,
    pairwiseDistinct (setOf seen xs)
    ∧ Forall (fun x => Forall (differs x) seen) (setOf seen xs).
Proof.
  induction xs as [|x rest IH]; intros seen; simpl; [by split|].
  destruct (existsb (sameValueZero x) seen) eqn:Hseen; [apply IH|].
  destruct (IH (x :: seen)) as [Hd Hall]. simpl.
  assert (Forall (differs x) seen) as Hx.
  { apply Forall_forall. intros s Hs. unfold differs.
    destruct (sameValueZero x s) eqn:Heq; [|done].
    assert (existsb (sameValueZero x) seen = true); [|congruence].
    apply existsb_exists. exists s. by rewrite <- list_elem_of_In. }
  repeat split; [| done | constructor; [done|] ].
  - eapply Forall_impl; [exact Hall|]. intros y Hy.
    inversion Hy as [|? ? Hyx _]; subst.
    unfold differs in *. by rewrite sameValueZero_sym.
  - eapply Forall_impl; [exact Hall|]. intros y Hy. by inversion Hy.
Qed.

Lemma setOf_Forall (P : value → Prop) (xs : list value) :
  Forall P xs → ∀ seen, Forall P (setOf seen xs).
Proof.
  induction 1 as [|x rest Hx _ IH]; intros seen; simpl; [done|].
  destruct (existsb (sameValueZero x) seen); [apply IH|].
  constructor; [done | apply IH].
Qed.

Lemma sortNumeric_perm (xs : list value) : sortNumeric xs ≡ₚ xs.
Proof.
  unfold sortNumeric. rewrite insertionSort_perm.
  induction xs as [|[n|] rest IH]; simpl; [done| |].
  - by rewrite IH.
  - rewrite filter_cons_True by done.
    rewrite <- Permutation_middle. by rewrite IH.
Qed.

Lemma numeric_values (xs : list value) :
  Forall (fun v => isNumeric v = true) xs →
  xs = Some <$> omap Datatypes.id xs
  ∧ filter (fun v => v = None) xs = []
  ∧ Forall (fun n => n ≠ NaN) (omap Datatypes.id xs).
Proof.
  induction 1 as [|[n|] rest Hx _ IH]; simpl; [done| |done].
  destruct IH as (IH1 & IH2 & IH3).
  rewrite filter_cons_False by done.
  split; [by f_equal|]. split; [done|].
  constructor; [|done]. intros ->. discriminate.
Qed.

Lemma strictlyAscending_of_sorted (l : list number) :
  StronglySorted (fun a b => numLt a b = true) l →
  strictlyAscending (Some <$> l).
Proof.
  induction 1 as [|x l Hsorted IH Hall]; intros k a b Ha Hb; [done|].
  destruct k as [|k]; simpl in *.
  - injection Ha as <-. destruct l as [|y l]; [done|].
    simpl in Hb. injection Hb as <-. by inversion Hall.
  - by eapply IH.
Qed.

Lemma pairwiseDistinct_numbers (l : list number) :
  pairwiseDistinct (Some <$> l) →
  Forall (fun n => n ≠ NaN) l →
  StronglySorted (fun a b => numLt a b = true) (foldr insertSorted [] l).
Proof.
  induction l as [|x l IH]; simpl; intros Hd Hnan; [constructor|].
  destruct Hd as [Hx Hl]. inversion Hnan as [|? ? Hxn Hln]; subst.
  apply insertSorted_strict; [done | | | by apply IH].
  - by rewrite insertionSort_perm.
  - rewrite insertionSort_perm.
    by apply (Forall_fmap Some (differs (Some x)) l).
Qed.

(** ** The timeline *)

Lemma extractTimePoints_distinct (parsedData : list row) :
  pairwiseDistinct (extractTimePoints parsedData).
Proof.
  unfold extractTimePoints.
  eapply pairwiseDistinct_perm; [symmetry; apply sortNumeric_perm|].
  apply setOf_distinct.
Qed.

Lemma extractTimePoints_ascending (parsedData : list row) :
  Forall (fun r => isNumeric (timeOf r) = true) parsedData →
  strictlyAscending (extractTimePoints parsedData).
Proof.
  intros Hnum. unfold extractTimePoints.
  set (xs := setOf [] (map timeOf parsedData)).
  assert (Forall (fun v => isNumeric v = true) xs) as Hxs.
  { apply setOf_Forall. change (map ?f ?l) with (f <$> l).
    by apply Forall_fmap. }
  destruct (numeric_values xs Hxs) as (Heq & Hundef & Hnan).
  unfold sortNumeric. rewrite Hundef, app_nil_r.
  apply strictlyAscending_of_sorted, pairwiseDistinct_numbers; [|done].
  rewrite <- Heq. apply setOf_distinct.
Qed.

(** The grid filter of the single-stream player keeps finite times only. *)
Lemma onGrid_numeric (r : row) :
  Single.onGrid r = true → isNumeric (timeOf r) = true.
Proof.
  unfold Single.onGrid. by destruct (timeOf r) as [[| |q|]|].
Qed.

(** Whatever order a sort leaves it in, an array of two or more entries
    that holds [NaN] is not ascending. *)
Lemma NaN_breaks_ascending (l : list value) :
  Some NaN ∈ l → (2 <= length l)%nat → ¬ strictlyAscending l.
Proof.
  intros Hin Hlen Hasc. apply list_elem_of_lookup in Hin as [k Hk].
  destruct (decide (S k < length l)%nat) as [Hlt|Hge].
  - destruct (lookup_lt_is_Some_2 l (S k) Hlt) as [b Hb].
    specialize (Hasc k _ _ Hk Hb).
    destruct b as [[| |q|]|]; simpl in Hasc; discriminate.
  - pose proof (lookup_lt_Some _ _ _ Hk) as Hk'.
    destruct k as [|k]; [lia|].
    destruct (lookup_lt_is_Some_2 l k ltac:(lia)) as [a Ha].
    specialize (Hasc k _ _ Ha Hk).
    destruct a as [[| |q|]|]; simpl in Hasc; discriminate.
Qed.

(** C5, as the code has it.  The timeline never holds a value twice, and
    the timeline of no samples is empty.  It is strictly ascending when
    every sample's time is a number other than [NaN]; the single-stream
    player filters its samples to the time grid first, which leaves only
    such samples, so its timeline is always strictly ascending. *)
Theorem timeline_distinct_and_ascending_on_numeric_times (parsedData : list row) :
  distinctValues (extractTimePoints parsedData)
  ∧ (Forall (fun r => isNumeric (timeOf r) = true) parsedData →
     strictlyAscending (extractTimePoints parsedData))
  ∧ strictlyAscending (extractTimePoints (List.filter Single.onGrid parsedData))
  ∧ extractTimePoints [] = [].
Proof.
  split; [apply pairwiseDistinct_lookup, extractTimePoints_distinct|].
  split; [apply extractTimePoints_ascending|]. split; [|done].
  apply extractTimePoints_ascending. apply List.Forall_forall.
  intros r Hr. apply filter_In in Hr as [_ Hr]. by apply onGrid_numeric.
Qed.

Lemma timeline_distinct_and_ascending_witness :
  strictlyAscending
    (extractTimePoints
       [ <["time" := Fin 3]> ∅; <["time" := Fin 1]> ∅;
         <["time" := Fin 3]> ∅; <["time" := Fin 2]> ∅ ]).
Proof.
  apply (timeline_distinct_and_ascending_on_numeric_times
           [ <["time" := Fin 3]> ∅; <["time" := Fin 1]> ∅;
             <["time" := Fin 3]> ∅; <["time" := Fin 2]> ∅ ]).
  repeat constructor.
Defined.

Example timeline_sorted_and_deduplicated :
  extractTimePoints
    [ <["time" := Fin 3]> ∅; <["time" := Fin 1]> ∅;
      <["time" := Fin 3]> ∅; <["time" := Fin 2]> ∅ ]
  = [Some (Fin 1); Some (Fin 2); Some (Fin 3)].
Proof. reflexivity. Qed.

(** The single-stream player on a file with an unparseable time and a
    time off the 0.02 grid: neither reaches the timeline. *)
Example single_timeline_drops_NaN :
  Single.timePoints
    (Single.loaded
       ("time" ++ String "010" "0.04" ++ String "010" "x" ++ String "010" "0.03"
        ++ String "010" "0.02")
       Single.initialState)
  = [Some (Fin (1 # 50)); Some (Fin (1 # 25))].
Proof. reflexivity. Qed.

(** C5 as stated fails: a line whose time does not parse puts [NaN] into
    the timeline, and [1 < NaN] is false. *)
Lemma timeline_not_ascending_with_NaN :
  ∃ rows,
    parseCSV ("time" ++ String "010" "1" ++ String "010" "x" ++ String "010" "2")
    = Some rows
    ∧ extractTimePoints rows = [Some (Fin 1); Some NaN; Some (Fin 2)]
    ∧ ¬ strictlyAscending (extractTimePoints rows).
Proof.
  eexists. split; [reflexivity|]. split; [reflexivity|].
  intros Hasc.
  specialize (Hasc 0%nat (Some (Fin 1)) (Some NaN) eq_refl eq_refl).
  discriminate.
Qed.

(** ** The trail *)

Section Scan.

Variables (timeIndex : Z) (currentMosquito : row).
Variables (tp : list value) (data : list row).

Let found (i : Z) : option row :=
  List.find (sameTrajectoryAt currentMosquito (valueAt tp (timeIndex - i))) data.

Lemma scanTrail_length (offsets : list Z) :
  (length (scanTrail offsets timeIndex currentMosquito tp data) <= length offsets)%nat.
Proof.
  induction offsets as [|i rest IH]; simpl; [lia|].
  destruct (timeIndex - i <? 0)%Z; simpl; [lia|].
  destruct (List.find _ data); simpl; lia.
Qed.

Lemma scanTrail_sound (offsets : list Z) (p : row) :
  p ∈ scanTrail offsets timeIndex currentMosquito tp data →
  ∃ i, i ∈ offsets ∧ (0 <= timeIndex - i)%Z ∧ found i = Some p.
Proof.
  induction offsets as [|i rest IH]; simpl; [by intros ?%elem_of_nil|].
  destruct (timeIndex - i <? 0)%Z eqn:Hneg; [by intros ?%elem_of_nil|].
  apply Z.ltb_ge in Hneg.
  destruct (List.find _ data) as [q|] eqn:Hfind.
  - intros [->|Hin]%elem_of_cons.
    + exists i. split; [by left | done].
    + destruct (IH Hin) as (i' & ? & ? & ?). exists i'. split; [by right | done].
  - intros Hin. destruct (IH Hin) as (i' & ? & ? & ?).
    exists i'. split; [by right | done].
Qed.

Lemma scanTrail_break (i : Z) (rest : list Z) :
  (timeIndex - i < 0)%Z →
  scanTrail (i :: rest) timeIndex currentMosquito tp data = [].
Proof. intros Hneg. simpl. apply Z.ltb_lt in Hneg. by rewrite Hneg. Qed.

Lemma scanTrail_nothing_found (offsets : list Z) :
  (∀ i, i ∈ offsets → (0 <= timeIndex - i)%Z → found i = None) →
  scanTrail offsets timeIndex currentMosquito tp data = [].
Proof.
  induction offsets as [|i rest IH]; intros Hnone; simpl; [done|].
  destruct (timeIndex - i <? 0)%Z eqn:Hneg; [done|].
  apply Z.ltb_ge in Hneg.
  pose proof (Hnone i ltac:(by left) Hneg) as Hi. unfold found in Hi.
  rewrite Hi. apply IH. intros i' Hin. apply Hnone. by right.
Qed.

Lemma scanTrail_complete (offsets : list Z) (i : Z) (p : row) :
  StronglySorted Z.lt offsets →
  i ∈ offsets → (0 <= timeIndex - i)%Z → found i = Some p →
  p ∈ scanTrail offsets timeIndex currentMosquito tp data.
Proof.
  induction 1 as [|i0 rest Hsorted IH Hall]; [by intros ?%elem_of_nil|].
  intros Hin Hpos Hfound. simpl.
  assert (0 <= timeIndex - i0)%Z as Hpos0.
  { apply elem_of_cons in Hin as [->|Hin]; [done|].
    rewrite Forall_forall in Hall. specialize (Hall i Hin). lia. }
  apply Z.ltb_ge in Hpos0. rewrite Hpos0.
  apply elem_of_cons in Hin as [->|Hin].
  - unfold found in Hfound. rewrite Hfound. by left.
  - destruct (List.find _ data); [right|]; by apply IH.
Qed.

Lemma found_matches (i : Z) (p : row) :
  found i = Some p →
  p ∈ data
  ∧ strictEq (trajectoryIdOf p) (trajectoryIdOf currentMosquito) = true
  ∧ strictEq (timeOf p) (valueAt tp (timeIndex - i)) = true.
Proof.
  intros Hfound. apply find_some in Hfound as [Hin Hsame].
  apply andb_true_iff in Hsame as [? ?]. by rewrite list_elem_of_In.
Qed.

Lemma nothing_found (i : Z) :
  (∀ p, p ∈ data →
     strictEq (trajectoryIdOf p) (trajectoryIdOf currentMosquito) = true →
     strictEq (timeOf p) (valueAt tp (timeIndex - i)) = false) →
  found i = None.
Proof.
  intros Hnone. destruct (found i) as [p|] eqn:Hfound; [|done].
  apply found_matches in Hfound as (Hin & Hid & Htime).
  rewrite (Hnone p Hin Hid) in Htime. discriminate.
Qed.

End Scan.

Lemma scanTrail_spec (trailLength offset : Z) (offsets : list Z)
    (currentMosquito : row) (tp : list value) (data : list row) :
  Z.of_nat (length offsets) = trailLength →
  (0 < offset)%Z →
  StronglySorted Z.lt offsets →
  Forall (fun i => (offset <= i)%Z) offsets →
  (∃ rest, offsets = offset :: rest) →
  trailSpec trailLength offset offsets currentMosquito tp data
    (scanTrail offsets (indexOf tp (timeOf currentMosquito)) currentMosquito tp data).
Proof.
  intros Hlen Hoffset Hsorted Hmin [rest Hhead]. unfold trailSpec.
  rewrite Forall_forall in Hmin.
  split; [|split; [|split; [|split]]].
  - pose proof (scanTrail_length (indexOf tp (timeOf currentMosquito))
                  currentMosquito tp data offsets). lia.
  - intros p Hp. apply scanTrail_sound in Hp as (i & Hi & Hpos & Hfound).
    apply found_matches in Hfound as (? & ? & ?).
    repeat split; try done.
    exists (indexOf tp (timeOf currentMosquito) - i)%Z.
    specialize (Hmin i Hi). split; [lia | done].
  - intros Hneg. rewrite Hhead. by apply scanTrail_break.
  - intros Hnone. apply scanTrail_nothing_found. intros i Hi Hpos.
    apply nothing_found. intros p Hp Hid. apply Hnone; try done.
    specialize (Hmin i Hi). lia.
  - intros i p Hi Hpos Hfound. by eapply scanTrail_complete.
Qed.

(** C6.  [getTrailData] is a total function (it never raises).  In the
    four-stream player it scans the five ticks 3 to 7 before the current
    one, in the single-stream player the ten ticks 1 to 10 before it, and
    both meet [trailSpec]: at most [TRAIL_LENGTH] entries, each a sample of
    the query's trajectory at a tick no later than the current tick minus
    the offset; an empty trail when that tick is below 0 or the trajectory
    has no earlier sample; ticks without a sample are skipped and the scan
    goes on to the older ticks of the window. *)
Theorem getTrailData_bounded_same_trajectory
    (currentMosquito : row) (sim : Sim) (st : Single.State) :
  trailSpec TRAIL_LENGTH 3 trailOffsets currentMosquito
    (timePoints sim) (mosquitoData sim) (getTrailData currentMosquito sim)
  ∧ trailSpec Single.TRAIL_LENGTH 1 Single.trailOffsets currentMosquito
      (Single.timePoints st) (Single.mosquitoData st)
      (Single.getTrailData currentMosquito st).
Proof.
  split; apply scanTrail_spec; try done.
  - repeat constructor.
  - repeat constructor; lia.
  - by eexists.
  - repeat constructor.
  - repeat constructor; lia.
  - by eexists.
Qed.

Example getTrailData_skips_gaps :
  let data := [sampleAt 7 0; sampleAt 8 1; sampleAt 7 2; sampleAt 8 3; sampleAt 7 3;
               sampleAt 7 4; sampleAt 7 5; sampleAt 7 6; sampleAt 7 7; sampleAt 7 8;
               sampleAt 7 9] in
  let sim := withData data (extractTimePoints data) newSim in
  getTrailData (sampleAt 7 9) sim
  = [sampleAt 7 6; sampleAt 7 5; sampleAt 7 4; sampleAt 7 3; sampleAt 7 2]
  ∧ getTrailData (sampleAt 7 5) sim = [sampleAt 7 2; sampleAt 7 0]
  ∧ getTrailData (sampleAt 7 2) sim = []
  ∧ getTrailData (<["time" := NaN]> (sampleAt 7 9)) sim = [].
Proof. repeat split; reflexivity. Qed.

(** ** Sessions: how a callback changes the play flag and the counters *)

Lemma precomputeFinish_globals (datasetId : string) (sim : Sim) (st : State) :
  totalDatasetsToLoad (precomputeFinish datasetId sim st) = totalDatasetsToLoad st
  ∧ precomputedDatasets (precomputeFinish datasetId sim st)
    = (precomputedDatasets st + 1)%Z
  ∧ isPlaying (precomputeFinish datasetId sim st)
    = if (precomputedDatasets st + 1 =? totalDatasetsToLoad st)%Z
      then true else isPlaying st.
Proof.
  unfold precomputeFinish, loadDataDone, markPrecomputed, setSim. simpl.
  destruct (precomputedDatasets st + 1 =? totalDatasetsToLoad st)%Z; simpl;
    match goal with |- context [if ?c then _ else _] => destruct c end; done.
Qed.

Lemma setSim_globals (datasetId : string) (sim : Sim) (st : State) :
  totalDatasetsToLoad (setSim datasetId sim st) = totalDatasetsToLoad st
  ∧ precomputedDatasets (setSim datasetId sim st) = precomputedDatasets st
  ∧ isPlaying (setSim datasetId sim st) = isPlaying st.
Proof. done. Qed.

Lemma animateAll_globals (timestamp : Q) (st : State) :
  totalDatasetsToLoad (animateAll timestamp st) = totalDatasetsToLoad st
  ∧ precomputedDatasets (animateAll timestamp st) = precomputedDatasets st
  ∧ isPlaying (animateAll timestamp st) = isPlaying st.
Proof.
  unfold animateAll, startClock.
  repeat match goal with |- context [if ?c then _ else _] => destruct c end; done.
Qed.

(** Every callback either leaves the counter of precomputed streams alone,
    and then only the play/pause click changes the flag, or it ends a
    precomputation: the counter grows by one and the flag is set exactly
    when the counter meets the total. *)
Lemma step_globals (e : Event) (st : State) :
  totalDatasetsToLoad (step e st) = totalDatasetsToLoad st
  ∧ ((precomputedDatasets (step e st) = precomputedDatasets st
      ∧ isPlaying (step e st)
        = if isClick e then negb (isPlaying st) else isPlaying st)
     ∨ (isClick e = false
        ∧ precomputedDatasets (step e st) = (precomputedDatasets st + 1)%Z
        ∧ isPlaying (step e st)
          = if (precomputedDatasets st + 1 =? totalDatasetsToLoad st)%Z
            then true else isPlaying st)).
Proof.
  destruct e as [dataset csvText|dataset msg|dataset i|timestamp| |]; simpl.
  - destruct (simulations st !! id dataset) as [sim|]; [|by split; [|left]].
    unfold loadDataFetched. destruct (parseCSV csvText) as [parsedData|].
    + match goal with |- context [if ?c then _ else _] => destruct c end.
      * by split; [|left].
      * destruct (precomputeFinish_globals (id dataset)
                    (precomputeStart (withData parsedData
                       (extractTimePoints parsedData) sim)) st) as (? & ? & ?).
        split; [done|]. by right.
    + by split; [|left].
  - destruct (simulations st !! id dataset) as [sim|]; by split; [|left].
  - destruct (simulations st !! id dataset) as [sim|]; [|by split; [|left]].
    destruct (i <? length (timePoints sim))%nat; [|by split; [|left]].
    unfold precomputeChunk.
    destruct (precomputeChunkFrames (seq 0 chunkSize) i sim) as [sim1 [|]].
    + by split; [|left].
    + match goal with |- context [if ?c then _ else _] => destruct c end.
      * by split; [|left].
      * destruct (precomputeFinish_globals (id dataset)
                    (precomputeReport i sim1) st) as (? & ? & ?).
        split; [done|]. by right.
  - destruct (animateAll_globals timestamp st) as (? & ? & ?).
    split; [done|]. by left.
  - by split; [|left].
  - by split; [|left].
Qed.

Lemma step_total (e : Event) (st : State) :
  totalDatasetsToLoad (step e st) = totalDatasetsToLoad st.
Proof. apply step_globals. Qed.

Lemma step_counter (e : Event) (st : State) :
  precomputedDatasets (step e st) = precomputedDatasets st
  ∨ precomputedDatasets (step e st) = (precomputedDatasets st + 1)%Z.
Proof. destruct (step_globals e st) as [_ [[? _]|(_ & ? & _)]]; auto. Qed.

Lemma run_total (events : list Event) :
  ∀ st, totalDatasetsToLoad (run events st) = totalDatasetsToLoad st.
Proof.
  induction events as [|e rest IH]; intros st; simpl; [done|].
  unfold run in *. simpl. rewrite IH. apply step_total.
Qed.

Lemma run_counter_grows (events : list Event) :
  ∀ st, (precomputedDatasets st <= precomputedDatasets (run events st))%Z.
Proof.
  induction events as [|e rest IH]; intros st; [done|].
  unfold run in *. simpl. specialize (IH (step e st)).
  destruct (step_counter e st); lia.
Qed.

Lemma reachesTotal_playing (e : Event) (st : State) :
  reachesTotal e st = true → isPlaying (step e st) = true.
Proof.
  unfold reachesTotal. intros [Hchanged Hreach]%andb_true_iff.
  apply negb_true_iff, Z.eqb_neq in Hchanged. apply Z.eqb_eq in Hreach.
  destruct (step_globals e st) as [_ [[? _]|(_ & Hcount & Hplay)]]; [done|].
  rewrite Hplay, <- Hcount, Hreach. by rewrite Z.eqb_refl.
Qed.

Lemma not_reachesTotal_playing (e : Event) (st : State) :
  reachesTotal e st = false →
  isPlaying (step e st) = if isClick e then negb (isPlaying st) else isPlaying st.
Proof.
  unfold reachesTotal. intros Hno.
  destruct (step_globals e st) as [_ [[_ ?]|(Hclick & Hcount & Hplay)]]; [done|].
  rewrite Hclick, Hplay. rewrite Hcount in Hno.
  destruct (precomputedDatasets st + 1 =? totalDatasetsToLoad st)%Z; [|done].
  exfalso. apply andb_false_iff in Hno as [Hno|Hno]; [|done].
  apply negb_false_iff, Z.eqb_eq in Hno. lia.
Qed.

Lemma autoPlayCount_closed_form (events : list Event) :
  ∀ st,
    autoPlayCount events st
    = if (precomputedDatasets st <? totalDatasetsToLoad st)%Z
         && (totalDatasetsToLoad st <=? precomputedDatasets (run events st))%Z
      then 1%nat else 0%nat.
Proof.
  induction events as [|e rest IH]; intros st.
  - simpl. destruct (Z.ltb_spec (precomputedDatasets st) (totalDatasetsToLoad st));
      destruct (Z.leb_spec (totalDatasetsToLoad st) (precomputedDatasets st));
      simpl; first [done | lia].
  - change (run (e :: rest) st) with (run rest (step e st)).
    simpl. rewrite IH, step_total. unfold reachesTotal.
    pose proof (run_counter_grows rest (step e st)) as Hgrow.
    destruct (step_counter e st) as [Heq|Heq]; rewrite Heq in *.
    + rewrite Z.eqb_refl. simpl. done.
    + replace (precomputedDatasets st + 1 =? precomputedDatasets st)%Z
        with false by (symmetry; apply Z.eqb_neq; lia). simpl.
      destruct (Z.eqb_spec (precomputedDatasets st + 1) (totalDatasetsToLoad st));
        destruct (Z.ltb_spec (precomputedDatasets st + 1) (totalDatasetsToLoad st));
        destruct (Z.ltb_spec (precomputedDatasets st) (totalDatasetsToLoad st));
        destruct (Z.leb_spec (totalDatasetsToLoad st)
                    (precomputedDatasets (run rest (step e st))));
        simpl; first [done | lia].
Qed.

Lemma run_playing_before_total (events : list Event) :
  ∀ st,
    (precomputedDatasets (run events st) < totalDatasetsToLoad st)%Z →
    isPlaying (run events st) = xorb (isPlaying st) (Nat.odd (clicks events)).
Proof.
  induction events as [|e rest IH]; intros st Hbefore.
  - simpl. by rewrite xorb_false_r.
  - change (run (e :: rest) st) with (run rest (step e st)) in *.
    rewrite <- (step_total e st) in Hbefore. rewrite (IH _ Hbefore).
    pose proof (run_counter_grows rest (step e st)) as Hgrow.
    rewrite step_total in Hbefore.
    unfold clicks. simpl.
    destruct (step_globals e st) as [_ [[_ Hplay]|(Hclick & Hcount & Hplay)]].
    + rewrite Hplay. destruct (isClick e); [|done].
      cbn [length]. rewrite Nat.odd_succ, <- Nat.negb_odd.
      by destruct (isPlaying st), (Nat.odd (length (List.filter isClick rest))).
    + rewrite Hplay, Hclick.
      destruct (Z.eqb_spec (precomputedDatasets st + 1) (totalDatasetsToLoad st));
        [lia | done].
Qed.

Lemma startState_globals (label : string) :
  isPlaying (startState label) = false
  ∧ precomputedDatasets (startState label) = 0%Z
  ∧ totalDatasetsToLoad (startState label) = 4%Z.
Proof. done. Qed.

(** C1, as the code has it.  In every session the play flag is set by the
    program itself at most once, at the callback where the count of
    precomputed streams reaches the total, and exactly once when the count
    gets there; at that callback the flag becomes true whatever it was.
    At every other callback the flag changes only by the play/pause click,
    which flips it in any state.  So before the count reaches the total
    the flag, false at the start, is true after an odd number of clicks and
    false after an even number: the click is recorded, it is not undone. *)
Theorem autoplay_once_and_clicks_recorded (label : string) (events : list Event) :
  (autoPlayCount events (startState label) <= 1)%nat
  ∧ (autoPlayCount events (startState label) = 1%nat
     ↔ (totalDatasetsToLoad (startState label)
        <= precomputedDatasets (run events (startState label)))%Z)
  ∧ (∀ e st, reachesTotal e st = true → isPlaying (step e st) = true)
  ∧ (∀ e st, reachesTotal e st = false →
       isPlaying (step e st)
       = if isClick e then negb (isPlaying st) else isPlaying st)
  ∧ isPlaying (startState label) = false
  ∧ ((precomputedDatasets (run events (startState label))
      < totalDatasetsToLoad (startState label))%Z →
     isPlaying (run events (startState label)) = Nat.odd (clicks events)).
Proof.
  destruct (startState_globals label) as (Hplay & Hcount & Htotal).
  pose proof (autoPlayCount_closed_form events (startState label)) as Hform.
  rewrite Hcount, Htotal in Hform.
  change (0 <? 4)%Z with true in Hform. cbn [andb] in Hform.
  split; [|split; [|split; [|split; [|split]]]].
  - rewrite Hform.
    destruct (4 <=? precomputedDatasets (run events (startState label)))%Z; lia.
  - rewrite Hform, Htotal.
    destruct (Z.leb_spec 4 (precomputedDatasets (run events (startState label))));
      split; first [done | lia].
  - apply reachesTotal_playing.
  - apply not_reachesTotal_playing.
  - done.
  - intros Hbefore. rewrite (run_playing_before_total _ _ Hbefore), Hplay.
    apply xorb_false_l.
Qed.

Lemma autoplay_once_and_clicks_recorded_witness :
  isPlaying (run [ClickPlayPause; AnimationFrame 16; ClickReset; ClickPlayPause;
                  ClickPlayPause] (startState "Play"))
  = Nat.odd (clicks [ClickPlayPause; AnimationFrame 16; ClickReset; ClickPlayPause;
                     ClickPlayPause]).
Proof.
  apply (autoplay_once_and_clicks_recorded "Play"
           [ClickPlayPause; AnimationFrame 16; ClickReset; ClickPlayPause;
            ClickPlayPause]).
  reflexivity.
Defined.

(** C1 as stated fails: one click on play/pause while every stream is still
    loading leaves the flag true. *)
Lemma click_sets_playing_while_waiting :
  let st := run [ClickPlayPause] (startState "Play") in
  precomputedDatasets st = 0%Z
  ∧ totalDatasetsToLoad st = 4%Z
  ∧ allReady (simulations st) = false
  ∧ isPlaying st = true
  ∧ isPlaying st ≠ false.
Proof. repeat split; try reflexivity. discriminate. Qed.

(** ** The playback clock *)

Lemma FRAME_INTERVAL_value : (FRAME_INTERVAL == 20)%Q.
Proof. reflexivity. Qed.

Lemma Qtruncate_floor (x : Q) : (0 <= x)%Q → Qtruncate x = Qfloor x.
Proof.
  destruct x as [n d]. unfold Qle, Qtruncate, Qfloor. simpl. intros Hn.
  apply Z.quot_div_nonneg; lia.
Qed.

(** For a positive divisor and a dividend that is not negative, [a % b] is
    what is left of [a] after the whole multiples of [b]. *)
Lemma remainder_bounds (a b : Q) :
  (0 < b)%Q → (0 <= a)%Q →
  (remainder a b == a - b * inject_Z (Qfloor (a / b)))%Q
  ∧ (0 <= remainder a b)%Q ∧ (remainder a b < b)%Q.
Proof.
  intros Hb Ha.
  assert (0 <= a / b)%Q as Hquot.
  { apply Qle_shift_div_l; [done | lra]. }
  unfold remainder. rewrite (Qtruncate_floor _ Hquot).
  pose proof (Qfloor_le (a / b)) as Hlow.
  pose proof (Qlt_floor (a / b)) as Hhigh.
  rewrite inject_Z_plus in Hhigh.
  assert (b * (a / b) == a)%Q as Hmul by (apply Qmult_div_r; lra).
  set (n := inject_Z (Qfloor (a / b))) in *.
  assert (b * n <= b * (a / b))%Q as H1.
  { apply Qmult_le_l; done. }
  assert (b * (a / b) < b * (n + inject_Z 1))%Q as H2.
  { apply Qmult_lt_l; done. }
  change (inject_Z 1) with 1%Q in H2.
  split; [reflexivity|]. split; lra.
Qed.

Lemma whole_intervals (a b : Q) :
  (0 < b)%Q → (b <= a)%Q → (1 <= Qfloor (a / b))%Z.
Proof.
  intros Hb Ha. change 1%Z with (Qfloor 1).
  apply Qfloor_resp_le. apply Qle_shift_div_l; [done | lra].
Qed.

Lemma animateAll_advancing (timestamp : Q) (st : State) :
  isPlaying st = true →
  allReady (simulations st) = true →
  (FRAME_INTERVAL <= deltaTimeAt timestamp st)%Q →
  animateAll timestamp st
  = withSimulations (advanceSim <$> simulations st)
      (withLastFrameTime
         (timestamp - remainder (deltaTimeAt timestamp st) FRAME_INTERVAL)%Q
         (startClock timestamp st)).
Proof.
  intros Hplay Hready Hdelta. unfold animateAll, deltaTimeAt in *.
  assert (isPlaying (startClock timestamp st) = true) as ->.
  { unfold startClock. by destruct (Qeq_bool _ _). }
  assert (simulations (startClock timestamp st) = simulations st) as ->.
  { unfold startClock. by destruct (Qeq_bool _ _). }
  rewrite Hready. simpl.
  apply Qle_bool_iff in Hdelta. by rewrite Hdelta.
Qed.

Lemma animateAll_waiting (timestamp : Q) (st : State) :
  allReady (simulations st) = false →
  simulations (animateAll timestamp st) = showProgress <$> simulations st.
Proof.
  intros Hready. unfold animateAll.
  assert (simulations (startClock timestamp st) = simulations st) as ->.
  { unfold startClock. by destruct (Qeq_bool _ _). }
  rewrite Hready, andb_false_r. done.
Qed.

(** At a wake-up of [animateAll] with the flag set, every stream ready and
    at least one frame interval elapsed, the reference time is assigned
    the source's expression [timestamp - (deltaTime % FRAME_INTERVAL)]. *)
Lemma animateAll_assigns_timestamp_minus_remainder (timestamp : Q) (st : State) :
  isPlaying st = true →
  allReady (simulations st) = true →
  (FRAME_INTERVAL <= deltaTimeAt timestamp st)%Q →
  lastFrameTime (animateAll timestamp st)
  = (timestamp - remainder (deltaTimeAt timestamp st) FRAME_INTERVAL)%Q.
Proof.
  intros Hplay Hready Hdelta.
  by rewrite (animateAll_advancing _ _ Hplay Hready Hdelta).
Qed.

(** The single-stream player does not keep the remainder: its [animate]
    sets the reference time to the timestamp itself. *)
Lemma single_animate_resets_to_timestamp (timestamp : Q) (st st' : Single.State) :
  Single.isPlaying st = true →
  (FRAME_INTERVAL
   <= timestamp - Single.lastFrameTime
                    (if Qeq_bool (Single.lastFrameTime st) 0
                     then Single.withLastFrameTime timestamp st else st))%Q →
  Single.animate timestamp st = Single.Returned st' ∨
  Single.animate timestamp st = Single.Threw st' →
  Single.lastFrameTime st' = timestamp.
Proof.
  intros Hplay Hdelta. unfold Single.animate.
  apply Qle_bool_iff in Hdelta. rewrite Hdelta.
  assert (Single.isPlaying
            (if Qeq_bool (Single.lastFrameTime st) 0
             then Single.withLastFrameTime timestamp st else st) = true) as ->.
  { by destruct (Qeq_bool _ _). }
  simpl. unfold Single.updateSimulation.
  set (st1 := Single.withLastFrameTime timestamp _).
  destruct (Single.tickValue (Single.timePoints st1) (Single.currentTimeIndex st1));
    simpl; [|intros [|]; by simplify_eq].
  repeat match goal with |- context [if ?c then _ else _] => destruct c end;
  repeat match goal with |- context [match ?c with Some _ => _ | None => _ end] =>
                           destruct c end;
    intros [|]; by simplify_eq.
Qed.

(** C2.  The single-stream [animate] does not subtract the remainder; it
    sets the reference time to the timestamp, so the part of the elapsed
    time beyond whole intervals is lost at every advance.  Wake-ups at
    1000, 1025 and 1040 ms on a file of four ticks: the first starts the
    clock, the second comes 25 ms later and advances.  The claim's
    reference time is then [1025 - 25 mod 20 = 1020]; [animate] leaves
    1025.  The third wake-up, two whole intervals after the start, thus
    finds 15 ms elapsed and does not advance: the stream is at tick 1.
    [animateAll] at the same wake-ups keeps the 5 ms: its reference time
    is 1020, then 1040, and its four-tick streams are at tick 2. *)
Theorem single_animate_forgets_the_remainder :
  ∃ st1 st2 st3 : Single.State,
    Single.animate 1000 (Single.loaded fourTicks Single.initialState)
    = Single.Returned st1
    ∧ Single.isPlaying st1 = true
    ∧ Single.lastFrameTime st1 = 1000%Q
    ∧ Single.currentTimeIndex st1 = Tick 0
    ∧ (FRAME_INTERVAL <= 1025 - Single.lastFrameTime st1)%Q
    ∧ (1025 - remainder (1025 - Single.lastFrameTime st1) FRAME_INTERVAL
       == 1020)%Q
    ∧ Single.animate 1025 st1 = Single.Returned st2
    ∧ Single.lastFrameTime st2 = 1025%Q
    ∧ Single.currentTimeIndex st2 = Tick 1
    ∧ Single.animate 1040 st2 = Single.Returned st3
    ∧ Single.lastFrameTime st3 = 1025%Q
    ∧ Single.currentTimeIndex st3 = Tick 1
    ∧ (lastFrameTime (run [AnimationFrame 1000; AnimationFrame 1025] readyState)
       == 1020)%Q
    ∧ (lastFrameTime
         (run [AnimationFrame 1000; AnimationFrame 1025; AnimationFrame 1040]
            readyState)
       == 1040)%Q
    ∧ ticksOf (run [AnimationFrame 1000; AnimationFrame 1025; AnimationFrame 1040]
                 readyState)
      = [Some (Tick 2); Some (Tick 2); Some (Tick 0); Some (Tick 2)].
Proof.
  let r1 := eval vm_compute in
      (Single.animate 1000 (Single.loaded fourTicks Single.initialState)) in
  match r1 with
  | Single.Returned ?s1 =>
      let r2 := eval vm_compute in (Single.animate 1025 s1) in
      match r2 with
      | Single.Returned ?s2 =>
          let r3 := eval vm_compute in (Single.animate 1040 s2) in
          match r3 with
          | Single.Returned ?s3 => exists s1, s2, s3
          end
      end
  end.
  repeat match goal with |- _ ∧ _ => split end;
    try (vm_compute; reflexivity).
  vm_compute; discriminate.
Qed.

(** Wake-ups 25, 15 and 22 ms after the reference time: the first and the
    third advance every stream, the second does not, and the reference
    time ends two whole intervals after the start. *)
Example three_wake_ups :
  let st0 := withLastFrameTime 1000 readyState in
  let st1 := animateAll 1025 st0 in
  let st2 := animateAll 1035 st1 in
  let st3 := animateAll 1042 st2 in
  (deltaTimeAt 1025 st0 == 25)%Q ∧ (deltaTimeAt 1035 st1 == 15)%Q
  ∧ (deltaTimeAt 1042 st2 == 22)%Q
  ∧ ticksOf st0 = [Some (Tick 0); Some (Tick 0); Some (Tick 0); Some (Tick 0)]
  ∧ ticksOf st1 = [Some (Tick 1); Some (Tick 1); Some (Tick 1); Some (Tick 1)]
  ∧ ticksOf st2 = ticksOf st1
  ∧ ticksOf st3 = [Some (Tick 2); Some (Tick 2); Some (Tick 0); Some (Tick 2)]
  ∧ (lastFrameTime st3 == 1040)%Q.
Proof.
  intros st0 st1 st2 st3.
  repeat match goal with |- _ ∧ _ => split end; vm_compute; reflexivity.
Qed.

Lemma allReady_false (sims : gmap string Sim) (datasetId : string) (sim : Sim) :
  sims !! datasetId = Some sim → isReady sim = false → allReady sims = false.
Proof.
  intros Hsim Hwaiting. unfold allReady. apply bool_decide_eq_false_2.
  intros Hall. specialize (Hall datasetId sim Hsim). simpl in Hall. congruence.
Qed.

Lemma showProgress_tick (sim : Sim) :
  currentTimeIndex (showProgress sim) = currentTimeIndex sim.
Proof. unfold showProgress. by destruct (isPrecomputing sim). Qed.

Lemma advanceSim_fields (sim : Sim) :
  timePoints (advanceSim sim) = timePoints sim
  ∧ precomputedFrames (advanceSim sim) = precomputedFrames sim
  ∧ currentTimeIndex (advanceSim sim)
    = if (0 <? length (precomputedFrames sim))%nat
      then nextTick (currentTimeIndex sim) (length (timePoints sim))
      else currentTimeIndex sim.
Proof. unfold advanceSim. by destruct (0 <? length (precomputedFrames sim))%nat. Qed.



(** The end-to-end scenario on timelines of 4, 4, 2 and 4 ticks: nothing
    moves, even after a click on play, while the fourth stream is still
    precomputing; once it is ready the streams advance together and the
    short one is back at tick 0 when the others reach tick 2. *)
Example streams_wrap_at_their_own_length :
  let wakeUps := [AnimationFrame 1000; AnimationFrame 1020; AnimationFrame 1040] in
  ticksOf (run (ClickPlayPause :: wakeUps) waitingState)
  = [Some (Tick 0); Some (Tick 0); Some (Tick 0); Some (Tick 0)]
  ∧ isPlaying readyState = true
  ∧ ticksOf (run wakeUps readyState)
    = [Some (Tick 2); Some (Tick 2); Some (Tick 0); Some (Tick 2)]
  ∧ ticksOf (run (wakeUps ++ [AnimationFrame 1060; AnimationFrame 1080]) readyState)
    = [Some (Tick 0); Some (Tick 0); Some (Tick 0); Some (Tick 0)].
Proof.
  intros wakeUps.
  repeat match goal with |- _ ∧ _ => split end; vm_compute; reflexivity.
Qed.

(** ** Wrap-around *)

Lemma nextTick_iter (n k : nat) :
  (1 <= n)%nat →
  Nat.iter k (fun t => nextTick t n) (Tick 0)
  = Tick (Z.of_nat k mod Z.of_nat n).
Proof.
  intros Hn. induction k as [|k IH].
  - simpl. by rewrite Z.mod_0_l by lia.
  - rewrite Nat.iter_succ, IH. unfold nextTick.
    destruct n as [|n']; [lia|]. f_equal.
    pose proof (Z.mod_pos_bound (Z.of_nat k) (Z.of_nat (S n')) ltac:(lia)).
    rewrite Z.rem_mod_nonneg by lia.
    rewrite Zplus_mod_idemp_l. f_equal. lia.
Qed.

Lemma advanceSim_iter (sim : Sim) (k : nat) :
  precomputedFrames sim ≠ [] →
  timePoints (Nat.iter k advanceSim sim) = timePoints sim
  ∧ precomputedFrames (Nat.iter k advanceSim sim) = precomputedFrames sim
  ∧ currentTimeIndex (Nat.iter k advanceSim sim)
    = Nat.iter k (fun t => nextTick t (length (timePoints sim)))
        (currentTimeIndex sim).
Proof.
  intros Hframes. induction k as [|k (IH1 & IH2 & IH3)]; [done|].
  rewrite !Nat.iter_succ.
  destruct (advanceSim_fields (Nat.iter k advanceSim sim)) as (H1 & H2 & H3).
  rewrite H1, H2, H3, IH1, IH2, IH3.
  destruct (precomputedFrames sim); [done|]. done.
Qed.

(** C7.  For a timeline of [n >= 1] ticks, the tick advance
    [(index + 1) % length] applied [n] times to index 0 gives 0 again, and
    after any number of applications the index is an integer from 0 to
    [n - 1].  The same holds for the stream update of [animateAll] on a
    stream that has frames; the update of the single-stream player, when
    it returns, applies the same advance. *)
Theorem tick_returns_to_zero_after_timeline_length (n : nat) (sim : Sim) :
  (1 <= n)%nat →
  Nat.iter n (fun t => nextTick t n) (Tick 0) = Tick 0
  ∧ (∀ k, ∃ z, Nat.iter k (fun t => nextTick t n) (Tick 0) = Tick z
               ∧ (0 <= z < Z.of_nat n)%Z)
  ∧ (length (timePoints sim) = n → precomputedFrames sim ≠ [] →
     currentTimeIndex sim = Tick 0 →
     currentTimeIndex (Nat.iter n advanceSim sim) = Tick 0
     ∧ ∀ k, ∃ z, currentTimeIndex (Nat.iter k advanceSim sim) = Tick z
                 ∧ (0 <= z < Z.of_nat n)%Z)
  ∧ (∀ single single',
       Single.updateSimulation single = Single.Returned single' →
       Single.currentTimeIndex single'
       = nextTick (Single.currentTimeIndex single)
           (length (Single.timePoints single))).
Proof.
  intros Hn.
  assert (∀ k, ∃ z, Nat.iter k (fun t => nextTick t n) (Tick 0) = Tick z
                    ∧ (0 <= z < Z.of_nat n)%Z) as Hrange.
  { intros k. exists (Z.of_nat k mod Z.of_nat n)%Z.
    split; [by apply nextTick_iter | apply Z.mod_pos_bound; lia]. }
  assert (Nat.iter n (fun t => nextTick t n) (Tick 0) = Tick 0) as Hwrap.
  { rewrite nextTick_iter by done. by rewrite Z.mod_same by lia. }
  split; [done|]. split; [done|]. split.
  - intros Hlen Hframes Hstart. split.
    + destruct (advanceSim_iter sim n Hframes) as (_ & _ & ->).
      by rewrite Hlen, Hstart.
    + intros k. destruct (advanceSim_iter sim k Hframes) as (_ & _ & ->).
      rewrite Hlen, Hstart. apply Hrange.
  - intros single single'. unfold Single.updateSimulation.
    destruct (Single.tickValue _ _); [|done]. by intros [= <-].
Qed.

Lemma tick_returns_to_zero_witness :
  Nat.iter 4 (fun t => nextTick t 4) (Tick 0) = Tick 0
  ∧ currentTimeIndex
      (Nat.iter 4 advanceSim (default newSim (simulations readyState !! "none")))
    = Tick 0.
Proof.
  destruct (tick_returns_to_zero_after_timeline_length 4
              (default newSim (simulations readyState !! "none")))
    as (Hwrap & _ & Hsim & _); [lia|].
  split; [exact Hwrap|].
  apply Hsim; [vm_compute; reflexivity | vm_compute; discriminate
              | vm_compute; reflexivity].
Defined.

(** ** Reset and play/pause *)

Lemma resetSim_fields (sim : Sim) :
  currentTimeIndex (resetSim sim) = Tick 0
  ∧ mosquitoData (resetSim sim) = mosquitoData sim
  ∧ timePoints (resetSim sim) = timePoints sim
  ∧ precomputedFrames (resetSim sim) = precomputedFrames sim
  ∧ isPrecomputing (resetSim sim) = isPrecomputing sim
  ∧ precomputeProgress (resetSim sim) = precomputeProgress sim
  ∧ isReady (resetSim sim) = isReady sim
  ∧ fillStyle (ctx (resetSim sim)) = fillStyle (ctx sim)
  ∧ font (ctx (resetSim sim)) = font (ctx sim).
Proof.
  unfold resetSim. simpl.
  destruct (0 <? length (precomputedFrames sim))%nat; [|done].
  by destruct (frameAtIndex (precomputedFrames sim) 0).
Qed.

Lemma resetSim_surface (sim : Sim) :
  surface (ctx (resetSim sim))
  = match frameAtIndex (precomputedFrames sim) 0 with
    | Some img => [DrawImage img]
    | None => surface (ctx sim)
    end.
Proof.
  unfold resetSim. simpl.
  destruct (precomputedFrames sim) as [|[img|] frames]; done.
Qed.

Lemma resetSim_idempotent (sim : Sim) : resetSim (resetSim sim) = resetSim sim.
Proof.
  unfold resetSim. simpl.
  destruct (0 <? length (precomputedFrames sim))%nat eqn:Hlen; simpl;
    [|by rewrite Hlen].
  destruct (frameAtIndex (precomputedFrames sim) 0) as [img|] eqn:Hframe; simpl;
    by rewrite Hlen, Hframe.
Qed.

(** C4.  After the reset click alone, with no wake-up in between and
    whatever the play flag, every stream is at tick 0, and the canvas of a
    stream whose frame for tick 0 exists shows exactly that frame; a
    stream without that frame keeps what its canvas showed.  The
    single-stream player, which has no frames, is at tick 0 as well. *)
Theorem reset_rewinds_and_draws_first_frame
    (st : State) (datasetId : string) (sim : Sim) (single : Single.State) :
  simulations st !! datasetId = Some sim →
  (∃ sim',
     simulations (clickReset st) !! datasetId = Some sim'
     ∧ currentTimeIndex sim' = Tick 0
     ∧ (∀ img, frameAtIndex (precomputedFrames sim) 0 = Some img →
          surface (ctx sim') = [DrawImage img])
     ∧ (frameAtIndex (precomputedFrames sim) 0 = None →
        surface (ctx sim') = surface (ctx sim)))
  ∧ Single.currentTimeIndex (Single.clickReset single) = Tick 0.
Proof.
  intros Hsim. split; [|done]. exists (resetSim sim).
  unfold clickReset. simpl. rewrite lookup_fmap, Hsim.
  split; [done|]. split; [apply resetSim_fields|].
  rewrite resetSim_surface. split.
  - by intros img ->.
  - by intros ->.
Qed.

Lemma reset_rewinds_and_draws_first_frame_witness :
  (∃ sim',
     simulations (clickReset pausedState) !! "none" = Some sim'
     ∧ currentTimeIndex sim' = Tick 0
     ∧ (∀ img, frameAtIndex (precomputedFrames (streamOf "none" pausedState)) 0
               = Some img →
          surface (ctx sim') = [DrawImage img])
     ∧ (frameAtIndex (precomputedFrames (streamOf "none" pausedState)) 0 = None →
        surface (ctx sim') = surface (ctx (streamOf "none" pausedState))))
  ∧ Single.currentTimeIndex (Single.clickReset Single.initialState) = Tick 0.
Proof.
  apply (reset_rewinds_and_draws_first_frame pausedState "none"
           (streamOf "none" pausedState) Single.initialState).
  vm_compute. reflexivity.
Defined.

(** Reset while paused in mid-playback: the stream was at tick 1 and its
    canvas showed the frame of tick 0 drawn by the last wake-up; after the
    click it is at tick 0 and the canvas shows its first frame, with no
    wake-up in between. *)
Example reset_while_paused :
  isPlaying pausedState = false
  ∧ tickOf "none" pausedState = Some (Tick 1)
  ∧ tickOf "none" (clickReset pausedState) = Some (Tick 0)
  ∧ is_Some (frameAtIndex (precomputedFrames (streamOf "none" pausedState)) 0)
  ∧ Some (surface (ctx (streamOf "none" (clickReset pausedState))))
    = (fun img => [DrawImage img])
        <$> frameAtIndex (precomputedFrames (streamOf "none" pausedState)) 0.
Proof.
  split; [vm_compute; reflexivity|]. split; [vm_compute; reflexivity|].
  split; [vm_compute; reflexivity|]. split; [|vm_compute; reflexivity].
  vm_compute. by eexists.
Qed.

(** C10.  The reset click leaves every global variable as it was, keeps
    the set of streams, and in each stream changes nothing but the tick
    index and what its canvas shows: data, timeline, frames, the three
    readiness fields and the context's fill style and font are the same. *)
Theorem reset_changes_only_tick_and_surface (st : State) :
  isPlaying (clickReset st) = isPlaying st
  ∧ lastFrameTime (clickReset st) = lastFrameTime st
  ∧ loadedDatasets (clickReset st) = loadedDatasets st
  ∧ precomputedDatasets (clickReset st) = precomputedDatasets st
  ∧ totalDatasetsToLoad (clickReset st) = totalDatasetsToLoad st
  ∧ animationStarted (clickReset st) = animationStarted st
  ∧ playPauseText (clickReset st) = playPauseText st
  ∧ dom (simulations (clickReset st)) = dom (simulations st)
  ∧ ∀ datasetId sim,
      simulations st !! datasetId = Some sim →
      ∃ sim',
        simulations (clickReset st) !! datasetId = Some sim'
        ∧ currentTimeIndex sim' = Tick 0
        ∧ mosquitoData sim' = mosquitoData sim
        ∧ timePoints sim' = timePoints sim
        ∧ precomputedFrames sim' = precomputedFrames sim
        ∧ isPrecomputing sim' = isPrecomputing sim
        ∧ precomputeProgress sim' = precomputeProgress sim
        ∧ isReady sim' = isReady sim
        ∧ fillStyle (ctx sim') = fillStyle (ctx sim)
        ∧ font (ctx sim') = font (ctx sim).
Proof.
  repeat (split; [done|]). split.
  - unfold clickReset. simpl. apply dom_fmap_L.
  - intros datasetId sim Hsim. exists (resetSim sim).
    unfold clickReset. simpl. rewrite lookup_fmap, Hsim.
    split; [done | apply resetSim_fields].
Qed.

(** C8, as the code has it.  Both clicks are total functions of the state
    (they cannot raise), in either player.  Reset is idempotent: a second
    reset changes nothing.  The play/pause click is not: it inverts the
    flag, so two clicks in a row give back the flag they started from, and
    a third click gives the state of the first. *)
Theorem reset_idempotent_toggle_involutive (st : State) (single : Single.State) :
  clickReset (clickReset st) = clickReset st
  ∧ Single.clickReset (Single.clickReset single) = Single.clickReset single
  ∧ isPlaying (clickPlayPause st) = negb (isPlaying st)
  ∧ isPlaying (clickPlayPause (clickPlayPause st)) = isPlaying st
  ∧ clickPlayPause (clickPlayPause (clickPlayPause st)) = clickPlayPause st
  ∧ Single.isPlaying (Single.clickPlayPause single) = negb (Single.isPlaying single)
  ∧ Single.clickPlayPause (Single.clickPlayPause single) = single.
Proof.
  split; [|split; [done|]].
  - assert (resetSim <$> (resetSim <$> simulations st) = resetSim <$> simulations st)
      as Hsims.
    { rewrite <- map_fmap_compose. apply map_fmap_ext.
      intros datasetId sim _. apply resetSim_idempotent. }
    unfold clickReset, withSimulations. simpl. by rewrite Hsims.
  - unfold clickPlayPause. simpl.
    split; [done|]. split; [by destruct (isPlaying st)|].
    split; [by destruct (isPlaying st)|]. split; [done|].
    unfold Single.clickPlayPause. destruct single as [? ? ? playing ? ?].
    simpl. by rewrite negb_involutive.
Qed.

(** C8 as stated fails for play/pause: the second click does not leave the
    state of the first, it undoes it. *)
Lemma second_click_undoes_the_first :
  isPlaying (clickPlayPause (startState "Play")) = true
  ∧ isPlaying (clickPlayPause (clickPlayPause (startState "Play"))) = false
  ∧ clickPlayPause (clickPlayPause (startState "Play"))
    ≠ clickPlayPause (startState "Play").
Proof.
  split; [reflexivity|]. split; [reflexivity|].
  intros Heq. apply (f_equal isPlaying) in Heq. discriminate.
Qed.

(** * Further results *)

(** ** White space around a file *)

Lemma trimStart_white_prefix (ws s : string) :
  forallb isWhiteSpace (list_ascii_of_string ws) = true →
  trimStart (ws ++ s) = trimStart s.
Proof.
  induction ws as [|c ws IH]; simpl; [done|].
  intros [Hc Hws]%andb_true_iff. rewrite Hc. by apply IH.
Qed.

Lemma trimEnd_white (ws : string) :
  forallb isWhiteSpace (list_ascii_of_string ws) = true →
  trimEnd ws = EmptyString.
Proof.
  induction ws as [|c ws IH]; simpl; [done|].
  intros [Hc Hws]%andb_true_iff. by rewrite (IH Hws), Hc.
Qed.

Lemma trimEnd_white_suffix (s ws : string) :
  forallb isWhiteSpace (list_ascii_of_string ws) = true →
  trimEnd (s ++ ws) = trimEnd s.
Proof.
  intros Hws. induction s as [|c s IH]; simpl.
  - by apply trimEnd_white.
  - by rewrite IH.
Qed.

Lemma trim_white_suffix (s ws : string) :
  forallb isWhiteSpace (list_ascii_of_string ws) = true →
  trim (s ++ ws) = trim s.
Proof.
  intros Hws. unfold trim. induction s as [|c s IH].
  - change (EmptyString ++ ws) with ws.
    assert (trimStart ws = EmptyString) as ->; [|done].
    clear -Hws. induction ws as [|c ws IH]; simpl in *; [done|].
    apply andb_true_iff in Hws as [Hc Hws]. rewrite Hc. by apply IH.
  - simpl. destruct (isWhiteSpace c); [done|].
    change (String c (s ++ ws)) with (String c s ++ ws).
    by apply trimEnd_white_suffix.
Qed.

(** X1.  White space before the header line and after the last line, such as
    the newline that ends a file, changes nothing: no record is added. *)
Theorem parseCSV_ignores_outer_white_space (before csvText after : string) :
  forallb isWhiteSpace (list_ascii_of_string before) = true →
  forallb isWhiteSpace (list_ascii_of_string after) = true →
  parseCSV (before ++ csvText ++ after) = parseCSV csvText.
Proof.
  intros Hbefore Hafter. unfold parseCSV.
  assert (trim (before ++ csvText ++ after) = trim csvText) as ->; [|done].
  unfold trim. rewrite (trimStart_white_prefix _ _ Hbefore).
  apply (trim_white_suffix csvText after Hafter).
Qed.

Lemma parseCSV_ignores_outer_white_space_witness :
  parseCSV (String "010" " " ++ ("time,x" ++ String "010" "1,2")
            ++ String "013" (String "010" (String "010" "")))
  = parseCSV ("time,x" ++ String "010" "1,2").
Proof.
  apply (parseCSV_ignores_outer_white_space (String "010" " ")
           ("time,x" ++ String "010" "1,2")
           (String "013" (String "010" (String "010" ""))));
    reflexivity.
Defined.

(** ** The timeline and the samples *)

Lemma sameValueZero_refl (a : value) : sameValueZero a a = true.
Proof. destruct a as [[| |q|]|]; simpl; try done. apply Qeq_bool_refl. Qed.

Lemma strictEq_sameValueZero (a b : value) :
  strictEq a b = true → sameValueZero a b = true.
Proof. by destruct a as [[| |p|]|], b as [[| |q|]|]. Qed.

Lemma strictEq_compat (a b x : value) :
  strictEq a b = true → strictEq x a = strictEq x b.
Proof.
  destruct a as [[| |p|]|], b as [[| |q|]|], x as [[| |r|]|]; simpl; try done.
  intros Hpq%Qeq_bool_iff.
  destruct (Qeq_bool r p) eqn:Hrp, (Qeq_bool r q) eqn:Hrq; try done.
  - apply Qeq_bool_iff in Hrp. apply Qeq_bool_neq in Hrq. exfalso. apply Hrq.
    by rewrite Hrp.
  - apply Qeq_bool_iff in Hrq. apply Qeq_bool_neq in Hrp. exfalso. apply Hrp.
    by rewrite Hrq.
Qed.

Lemma setOf_subset (xs : list value) :
  ∀ seen v, v ∈ setOf seen xs → v ∈ xs.
Proof.
  induction xs as [|x rest IH]; intros seen v; simpl; [done|].
  destruct (existsb (sameValueZero x) seen).
  - intros Hin. right. by eapply IH.
  - intros [->|Hin]%elem_of_cons; [by left | right; by eapply IH].
Qed.

Lemma setOf_covers (xs : list value) :
  ∀ seen x, x ∈ xs →
    (∃ s, s ∈ seen ∧ sameValueZero x s = true)
    ∨ (∃ v, v ∈ setOf seen xs ∧ sameValueZero v x = true).
Proof.
  induction xs as [|y rest IH]; intros seen x Hin; [by apply elem_of_nil in Hin|].
  simpl. destruct (existsb (sameValueZero y) seen) eqn:Hseen.
  - apply elem_of_cons in Hin as [->|Hin]; [|by apply IH].
    left. apply existsb_exists in Hseen as (s & Hs & Heq).
    exists s. by rewrite list_elem_of_In.
  - apply elem_of_cons in Hin as [->|Hin].
    + right. exists y. split; [by left | apply sameValueZero_refl].
    + destruct (IH (y :: seen) x Hin) as [(s & Hs & Heq)|(v & Hv & Heq)].
      * apply elem_of_cons in Hs as [->|Hs].
        -- right. exists y. split; [by left|]. by rewrite sameValueZero_sym.
        -- left. by exists s.
      * right. exists v. split; [by right | done].
Qed.

Lemma extractTimePoints_from_samples (parsedData : list row) (v : value) :
  v ∈ extractTimePoints parsedData → ∃ r, r ∈ parsedData ∧ v = timeOf r.
Proof.
  unfold extractTimePoints. intros Hv. rewrite sortNumeric_perm in Hv.
  apply setOf_subset in Hv. change (map ?f ?l) with (f <$> l) in Hv.
  apply list_elem_of_fmap in Hv as (r & -> & Hr). by exists r.
Qed.

Lemma extractTimePoints_covers (parsedData : list row) (r : row) :
  r ∈ parsedData →
  ∃ v, v ∈ extractTimePoints parsedData ∧ sameValueZero v (timeOf r) = true.
Proof.
  intros Hr. unfold extractTimePoints.
  destruct (setOf_covers (map timeOf parsedData) [] (timeOf r))
    as [(s & Hs & _)|(v & Hv & Heq)].
  - change (map ?f ?l) with (f <$> l). by apply list_elem_of_fmap_2.
  - by apply elem_of_nil in Hs.
  - exists v. split; [by rewrite sortNumeric_perm | done].
Qed.

(** X2.  Every tick of the timeline is the time of a sample, and the time of
    every sample is a tick of the timeline (as [Set] compares values):
    extraction neither invents nor loses a time. *)
Theorem timeline_holds_exactly_the_sample_times (parsedData : list row) :
  (∀ v, v ∈ extractTimePoints parsedData → ∃ r, r ∈ parsedData ∧ v = timeOf r)
  ∧ (∀ r, r ∈ parsedData →
       ∃ v, v ∈ extractTimePoints parsedData
            ∧ sameValueZero v (timeOf r) = true).
Proof.
  split.
  - apply extractTimePoints_from_samples.
  - apply extractTimePoints_covers.
Qed.

Lemma indexOfFrom_distinct (xs : list value) :
  ∀ (start : Z) (k : nat) (v : value),
    pairwiseDistinct xs → xs !! k = Some v → v ≠ Some NaN →
    indexOfFrom start xs v = (start + Z.of_nat k)%Z.
Proof.
  induction xs as [|x rest IH]; intros start k v Hd Hk Hv; [done|].
  destruct Hd as [Hx Hrest]. destruct k as [|k]; simpl in *.
  - injection Hk as ->.
    assert (strictEq v v = true) as ->; [|lia].
    destruct v as [[| |q|]|]; simpl; try done. apply Qeq_bool_refl.
  - rewrite Forall_forall in Hx.
    assert (strictEq x v = false) as ->.
    { destruct (strictEq x v) eqn:Heq; [|done].
      apply strictEq_sameValueZero in Heq.
      rewrite (Hx v) in Heq; [done|]. by eapply list_elem_of_lookup_2. }
    rewrite (IH _ k v) by done. lia.
Qed.

Lemma indexOfFrom_NaN (xs : list value) :
  ∀ start, indexOfFrom start xs (Some NaN) = (-1)%Z.
Proof.
  induction xs as [|x rest IH]; intros start; simpl; [done|].
  assert (strictEq x (Some NaN) = false) as -> by (by destruct x as [[| | |]|]).
  apply IH.
Qed.

(** X3.  On an extracted timeline [indexOf] undoes indexing: the tick that holds
    a time other than [NaN] is the index [indexOf] finds for it.  [NaN] is
    never found, and a mosquito whose time is not found has no trail. *)
Theorem indexOf_finds_the_tick (parsedData : list row) (k : nat) (v : value)
    (currentMosquito : row) (sim : Sim) :
  (extractTimePoints parsedData !! k = Some v → v ≠ Some NaN →
   indexOf (extractTimePoints parsedData) v = Z.of_nat k)
  ∧ indexOf (timePoints sim) (Some NaN) = (-1)%Z
  ∧ (indexOf (timePoints sim) (timeOf currentMosquito) = (-1)%Z →
     getTrailData currentMosquito sim = [])
  ∧ (timeOf currentMosquito = Some NaN → getTrailData currentMosquito sim = []).
Proof.
  split; [|split; [|split]].
  - intros Hk Hv. unfold indexOf.
    rewrite (indexOfFrom_distinct _ 0 k v); [lia | | done | done].
    apply extractTimePoints_distinct.
  - apply indexOfFrom_NaN.
  - intros Hmissing. unfold getTrailData. rewrite Hmissing. done.
  - intros Htime. unfold getTrailData, indexOf.
    rewrite Htime, indexOfFrom_NaN. done.
Qed.

Lemma indexOf_finds_the_tick_witness :
  indexOf (extractTimePoints [sampleAt 1 3; sampleAt 1 1; sampleAt 2 3; sampleAt 1 2])
    (Some (Fin 3))
  = 2%Z.
Proof.
  apply (indexOf_finds_the_tick
           [sampleAt 1 3; sampleAt 1 1; sampleAt 2 3; sampleAt 1 2] 2
           (Some (Fin 3)) ∅ newSim);
    [reflexivity | discriminate].
Defined.

Lemma indexOfFrom_compat (xs : list value) (a b : value) :
  strictEq a b = true → ∀ start, indexOfFrom start xs a = indexOfFrom start xs b.
Proof.
  intros Heq. induction xs as [|x rest IH]; intros start; simpl; [done|].
  rewrite (strictEq_compat a b x Heq). by rewrite IH.
Qed.

(** ** Frames *)

Lemma filter_nothing {A : Type} (f : A → bool) (l : list A) :
  (∀ x, f x = false) → List.filter f l = [].
Proof.
  intros Hf. induction l as [|x l IH]; simpl; [done|]. by rewrite Hf.
Qed.

(** X4.  The frame composed for tick [k] of a stream as [loadData] fills it:
    it holds the samples of that tick's time and no others, each with the
    trail scanned back from tick [k]: every entry of the frame is a sample
    of that time, and every sample of that time is an entry of the frame.
    A tick of time [NaN] gives a frame without any mosquito; every other
    tick gives a frame with at least one. *)
Theorem frame_holds_the_mosquitoes_of_its_tick
    (sim : Sim) (k : nat) (time : number) :
  timePoints sim = extractTimePoints (mosquitoData sim) →
  timePoints sim !! k = Some (Some time) →
  (time = NaN → frameMosquitoes (renderFrame sim time) = [])
  ∧ (time ≠ NaN → frameMosquitoes (renderFrame sim time) ≠ [])
  ∧ (∀ mosquito trail,
       (mosquito, trail) ∈ frameMosquitoes (renderFrame sim time) →
       mosquito ∈ mosquitoData sim
       ∧ strictEq (timeOf mosquito) (Some time) = true
       ∧ indexOf (timePoints sim) (timeOf mosquito) = Z.of_nat k
       ∧ trail = getTrailData mosquito sim)
  ∧ ∀ mosquito,
      mosquito ∈ mosquitoData sim →
      strictEq (timeOf mosquito) (Some time) = true →
      (mosquito, getTrailData mosquito sim)
        ∈ frameMosquitoes (renderFrame sim time).
Proof.
  intros Htp Hk. unfold renderFrame. cbn [frameMosquitoes].
  split; [|split; [|split]].
  - intros ->. rewrite filter_nothing; [done|].
    intros r. by destruct (timeOf r) as [[| | |]|].
  - intros Htime Hempty.
    destruct (extractTimePoints_from_samples (mosquitoData sim) (Some time))
      as (r & Hr & Heq).
    { rewrite <- Htp. by eapply list_elem_of_lookup_2. }
    assert (r ∈ List.filter (fun r => strictEq (timeOf r) (Some time))
                  (mosquitoData sim)) as Hin.
    { apply list_elem_of_In, filter_In. split; [by apply list_elem_of_In|].
      rewrite <- Heq. destruct time; simpl; try done. apply Qeq_bool_refl. }
    apply (f_equal length) in Hempty. rewrite length_map in Hempty.
    destruct (List.filter _ _); [by apply elem_of_nil in Hin | done].
  - intros mosquito trail Hin.
    change (map ?f ?l) with (f <$> l) in Hin.
    apply list_elem_of_fmap in Hin as (m & [= -> ->] & Hm).
    apply list_elem_of_In, filter_In in Hm as [Hm Htime].
    split; [by apply list_elem_of_In|]. split; [done|]. split; [|done].
    unfold indexOf. rewrite (indexOfFrom_compat _ _ _ Htime).
    rewrite (indexOfFrom_distinct _ 0 k (Some time)); [lia | | done |].
    + rewrite Htp. apply extractTimePoints_distinct.
    + intros [= ->]. by destruct (timeOf m) as [[| | |]|].
  - intros mosquito Hin Htime.
    change (map ?f ?l) with (f <$> l).
    apply list_elem_of_fmap. exists mosquito. split; [done|].
    apply list_elem_of_In, filter_In. split; [by apply list_elem_of_In | done].
Qed.

Lemma frame_holds_the_mosquitoes_witness :
  frameMosquitoes
    (renderFrame (streamOf "none" readyState) (Fin (1 # 50))) ≠ [].
Proof.
  destruct (frame_holds_the_mosquitoes_of_its_tick
              (streamOf "none" readyState) 1 (Fin (1 # 50)))
    as (_ & Hsome & _ & _);
    [vm_compute; reflexivity | vm_compute; reflexivity |].
  apply Hsome. discriminate.
Defined.

(** ** The progress figure *)

Lemma mathRound_le (x y : Q) : (x <= y)%Q → (mathRound x <= mathRound y)%Z.
Proof. intros Hle. unfold mathRound. apply Qfloor_resp_le. lra. Qed.

Lemma chunk_fraction_le (i i' len : nat) :
  (i <= i')%nat →
  (inject_Z (Z.of_nat (i + chunkSize)) / inject_Z (Z.of_nat len) * 100
   <= inject_Z (Z.of_nat (i' + chunkSize)) / inject_Z (Z.of_nat len) * 100)%Q.
Proof.
  intros Hle. apply Qmult_le_compat_r; [|done].
  apply Qmult_le_compat_r.
  - rewrite <- Zle_Qle. lia.
  - apply Qinv_le_0_compat. change 0%Q with (inject_Z 0).
    rewrite <- Zle_Qle. lia.
Qed.

Lemma progressAfter_last (i len : nat) :
  (1 <= len)%nat → (len <= i + chunkSize)%nat → progressAfter i len = 100%Z.
Proof.
  intros Hlen Hlast. unfold progressAfter. apply Z.min_l.
  assert (0 < inject_Z (Z.of_nat len))%Q as Hpos.
  { change 0%Q with (inject_Z 0). rewrite <- Zlt_Qlt. lia. }
  assert (1 <= inject_Z (Z.of_nat (i + chunkSize)) / inject_Z (Z.of_nat len))%Q
    as Hfraction.
  { apply Qle_shift_div_l; [done|]. rewrite Qmult_1_l, <- Zle_Qle. lia. }
  set (fraction := (_ / _)%Q) in *.
  pose proof (mathRound_le 100 (fraction * 100) ltac:(lra)) as Hround.
  exact Hround.
Qed.

Lemma progress_bounds (i len : nat) : (0 <= progressAfter i len <= 100)%Z.
Proof.
  unfold progressAfter. split; [|apply Z.le_min_l].
  apply Z.min_glb; [lia|].
  assert (0 <= inject_Z (Z.of_nat (i + chunkSize)) / inject_Z (Z.of_nat len) * 100)%Q
    as Hpos; [|exact (mathRound_le 0 _ Hpos)].
  apply Qmult_le_0_compat; [|done]. apply Qmult_le_0_compat.
  - change 0%Q with (inject_Z 0). rewrite <- Zle_Qle. lia.
  - apply Qinv_le_0_compat. change 0%Q with (inject_Z 0).
    rewrite <- Zle_Qle. lia.
Qed.

(** X5.  The percentage shown during precomputation is a whole number from 0
    to 100, does not go down from one chunk to the next, and is 100 after
    the chunk that reaches the end of the timeline. *)
Theorem progress_stays_in_range_and_ends_at_100 (i i' len : nat) :
  (0 <= progressAfter i len <= 100)%Z
  ∧ ((i <= i')%nat → (progressAfter i len <= progressAfter i' len)%Z)
  ∧ ((1 <= len)%nat → (len <= i + chunkSize)%nat → progressAfter i len = 100%Z).
Proof.
  split; [apply progress_bounds|split].
  - intros Hle. unfold progressAfter.
    apply Z.min_le_compat_l, mathRound_le. by apply chunk_fraction_le.
  - apply progressAfter_last.
Qed.

Lemma progress_stays_in_range_witness :
  (progressAfter 10 25 <= progressAfter 20 25)%Z ∧ progressAfter 20 25 = 100%Z.
Proof.
  destruct (progress_stays_in_range_and_ends_at_100 10 20 25) as (_ & Hmono & _).
  destruct (progress_stays_in_range_and_ends_at_100 20 20 25) as (_ & _ & Hlast).
  split; [apply Hmono; lia | apply Hlast; vm_compute; lia].
Defined.

(** ** A whole precomputation *)

Lemma renderFrame_same (s1 s2 : Sim) (time : number) :
  mosquitoData s1 = mosquitoData s2 → timePoints s1 = timePoints s2 →
  renderFrame s1 time = renderFrame s2 time.
Proof.
  destruct s1, s2. simpl. intros -> ->. reflexivity.
Qed.

Lemma withFrames_same (sim : Sim) : withFrames (precomputedFrames sim) sim = sim.
Proof. by destruct sim. Qed.

Lemma expectedFrames_length (sim : Sim) :
  length (expectedFrames sim) = length (timePoints sim).
Proof. unfold expectedFrames. by rewrite length_fmap. Qed.

(** One pass of the inner loop appends the frames of its ticks, in order. *)
Lemma precomputeChunkFrames_fills (sim0 : Sim) (i : nat) :
  Forall (fun v : value => v ≠ None) (timePoints sim0) →
  ∀ (n j0 : nat) (sim : Sim),
    mosquitoData sim = mosquitoData sim0 →
    timePoints sim = timePoints sim0 →
    precomputedFrames sim = take (i + j0) (expectedFrames sim0) →
    (i + j0 <= length (timePoints sim0))%nat →
    precomputeChunkFrames (seq j0 n) i sim
    = (withFrames (take (i + j0 + n) (expectedFrames sim0)) sim, false).
Proof.
  intros Hdefined. induction n as [|n IH]; intros j0 sim Hdata Htp Hframes Hle.
  - simpl. rewrite Nat.add_0_r, <- Hframes. by rewrite withFrames_same.
  - cbn [seq precomputeChunkFrames]. rewrite Htp.
    destruct (i + j0 <? length (timePoints sim0))%nat eqn:Hlt.
    + apply Nat.ltb_lt in Hlt.
      destruct (lookup_lt_is_Some_2 (timePoints sim0) (i + j0) Hlt) as [v Hv].
      rewrite Forall_forall in Hdefined.
      pose proof (Hdefined v (list_elem_of_lookup_2 _ _ _ Hv)) as Hsome.
      destruct v as [time|]; [|done]. rewrite Hv. cbn [mjoin option_join].
      rewrite (IH (S j0)); try done.
      * f_equal. unfold withFrames. simpl. do 2 f_equal. lia.
      * simpl. unfold storeFrame. rewrite Hframes.
        rewrite length_take, expectedFrames_length, Nat.min_l by lia.
        rewrite (proj2 (Nat.ltb_ge _ _)) by lia.
        rewrite Nat.sub_diag. simpl.
        replace (i + S j0)%nat with (S (i + j0)) by lia.
        erewrite take_S_r; [done|].
        unfold expectedFrames. rewrite list_lookup_fmap, Hv. simpl.
        by rewrite (renderFrame_same sim sim0).
      * lia.
    + apply Nat.ltb_ge in Hlt.
      rewrite take_ge by (rewrite expectedFrames_length; lia).
      rewrite <- (take_ge (expectedFrames sim0) (i + j0))
        by (rewrite expectedFrames_length; lia).
      by rewrite <- Hframes, withFrames_same.
Qed.

Lemma precomputeFinish_loaded (datasetId : string) (sim : Sim) (st : State) :
  loadedDatasets (precomputeFinish datasetId sim st) = (loadedDatasets st + 1)%Z
  ∧ simulations (precomputeFinish datasetId sim st)
    = <[datasetId := finishSim sim]> (simulations st).
Proof.
  unfold precomputeFinish, loadDataDone, markPrecomputed, setSim. simpl.
  repeat match goal with |- context [if ?c then _ else _] => destruct c end; done.
Qed.

Lemma run_cons (e : Event) (events : list Event) (st : State) :
  run (e :: events) st = run events (step e st).
Proof. done. Qed.

(** From loop index [i], with the frames of the first [i] ticks stored,
    the remaining timers finish the precomputation. *)
Lemma precompute_loop (dataset : Dataset) (sim0 : Sim) (st0 : State) :
  Forall (fun v : value => v ≠ None) (timePoints sim0) →
  ∀ (fuel i : nat) (st : State) (sim : Sim),
    simulations st !! id dataset = Some sim →
    mosquitoData sim = mosquitoData sim0 →
    timePoints sim = timePoints sim0 →
    currentTimeIndex sim = currentTimeIndex sim0 →
    precomputedFrames sim = take i (expectedFrames sim0) →
    precomputedDatasets st = precomputedDatasets st0 →
    loadedDatasets st = loadedDatasets st0 →
    (i < length (timePoints sim0))%nat →
    (length (timePoints sim0) <= i + fuel)%nat →
    precomputationDone sim0 st0
      (run (Timer dataset <$> chunkStartsFrom fuel i (length (timePoints sim0))) st)
      (id dataset).
Proof.
  intros Hdefined.
  induction fuel as [|fuel IH];
    intros i st sim Hsim Hdata Htp Htick Hframes Hpre Hloaded Hlt Hfuel; [lia|].
  cbn [chunkStartsFrom]. rewrite (proj2 (Nat.ltb_lt _ _) Hlt).
  rewrite fmap_cons, run_cons. cbn [step]. rewrite Hsim, Htp.
  rewrite (proj2 (Nat.ltb_lt _ _) Hlt). unfold precomputeChunk.
  rewrite (precomputeChunkFrames_fills sim0 i Hdefined chunkSize 0 sim);
    [| done | done | by rewrite Nat.add_0_r | lia].
  rewrite Nat.add_0_r.
  set (sim1 := withFrames (take (i + chunkSize) (expectedFrames sim0)) sim).
  assert (timePoints (precomputeReport i sim1) = timePoints sim0) as Htp1
      by (by rewrite <- Htp).
  rewrite Htp1.
  destruct (i + chunkSize <? length (timePoints sim0))%nat eqn:Hmore.
  - apply Nat.ltb_lt in Hmore.
    apply (IH (i + chunkSize)%nat _ (precomputeReport i sim1)); try done.
    + unfold setSim. simpl. apply lookup_insert_eq.
    + unfold chunkSize in *. lia.
  - apply Nat.ltb_ge in Hmore.
    assert (chunkStartsFrom fuel (i + chunkSize) (length (timePoints sim0)) = [])
      as ->.
    { destruct fuel; [done|]. cbn [chunkStartsFrom].
      by rewrite (proj2 (Nat.ltb_ge _ _) Hmore). }
    cbn [fmap list_fmap run foldl].
    destruct (precomputeFinish_globals (id dataset) (precomputeReport i sim1) st)
      as (_ & Hcount & _).
    destruct (precomputeFinish_loaded (id dataset) (precomputeReport i sim1) st)
      as (Hload & Hsims).
    exists (finishSim (precomputeReport i sim1)).
    assert (take (i + chunkSize) (expectedFrames sim0) = expectedFrames sim0)
      as Hall by (apply take_ge; rewrite expectedFrames_length; lia).
    split; [rewrite Hsims; apply lookup_insert_eq|].
    split; [exact Hall|]. split; [done|]. split; [done|]. split; [done|].
    split; [done|]. split; [done|].
    split; [simpl; rewrite Htp; apply progressAfter_last; lia|].
    split; [|split; [by rewrite Hcount, Hpre | by rewrite Hload, Hloaded]].
    unfold finishSim. simpl. rewrite Hall.
    by destruct (frameAtIndex (expectedFrames sim0) 0).
Qed.

(** X6.  A stream whose timeline has at least one tick, every tick with a time,
    and no frame yet: when its timers have fired, whatever ran before, it
    holds exactly one frame per tick, the frame of tick [k] being the one
    composed for the time of tick [k]; it is ready, shows 100 percent and
    its first frame, and both counters have grown by one. *)
Theorem precomputation_stores_one_frame_per_tick
    (dataset : Dataset) (st : State) (sim : Sim) :
  simulations st !! id dataset = Some sim →
  precomputedFrames sim = [] →
  timePoints sim ≠ [] →
  Forall (fun v : value => v ≠ None) (timePoints sim) →
  precomputationDone sim st
    (run (precomputeEvents dataset (length (timePoints sim))) st) (id dataset)
  ∧ length (expectedFrames sim) = length (timePoints sim)
  ∧ ∀ k time, timePoints sim !! k = Some (Some time) →
      frameAt (expectedFrames sim) (Tick (Z.of_nat k)) = Some (renderFrame sim time).
Proof.
  intros Hsim Hframes Hnonempty Hdefined. split; [|split].
  - unfold precomputeEvents.
    apply (precompute_loop dataset sim st Hdefined _ 0 st sim); try done.
    destruct (timePoints sim); [done | simpl; lia].
  - apply expectedFrames_length.
  - intros k time Hk. unfold frameAt, frameAtIndex, expectedFrames.
    rewrite (proj2 (Z.ltb_ge _ _)) by lia.
    rewrite Nat2Z.id, list_lookup_fmap, Hk. done.
Qed.

Lemma precomputation_stores_one_frame_per_tick_witness :
  precomputationDone (streamOf "visualco2" waitingState) waitingState
    (run (precomputeEvents visualco2Dataset 4) waitingState) "visualco2".
Proof.
  apply (precomputation_stores_one_frame_per_tick visualco2Dataset waitingState
           (streamOf "visualco2" waitingState)).
  - vm_compute. reflexivity.
  - vm_compute. reflexivity.
  - vm_compute. discriminate.
  - vm_compute. repeat constructor; discriminate.
Defined.

(** ** Files that give no timeline *)

Lemma setOf_all_undefined (xs : list value) :
  Forall (fun v => v = None) xs → setOf [None] xs = [].
Proof.
  induction 1 as [|x rest -> _ IH]; simpl; [done | exact IH].
Qed.

Lemma extractTimePoints_no_time (rows : list row) :
  rows ≠ [] → Forall (fun r => timeOf r = None) rows →
  extractTimePoints rows = [None].
Proof.
  intros Hne Hall. destruct Hall as [|r rest Hr Hrest]; [done|].
  unfold extractTimePoints. simpl. rewrite Hr. simpl.
  rewrite setOf_all_undefined; [done|].
  change (map ?f ?l) with (f <$> l). by apply Forall_fmap.
Qed.

(** X7.  A file with records but no [time] column: the timeline is the single
    tick [undefined], the first chunk fails on it, and the stream is left
    with the error text, still marked as precomputing and never ready; no
    counter moves and the play flag is untouched, so the other streams
    wait for it for good. *)
Theorem file_without_time_column_never_ready
    (dataset : Dataset) (csvText : string) (rows : list row)
    (st : State) (sim : Sim) :
  simulations st !! id dataset = Some sim →
  parseCSV csvText = Some rows →
  rows ≠ [] →
  Forall (fun r => timeOf r = None) rows →
  ∃ sim',
    simulations (run [FetchOk dataset csvText; Timer dataset 0] st) !! id dataset
    = Some sim'
    ∧ timePoints sim' = [None]
    ∧ isReady sim' = isReady sim
    ∧ isPrecomputing sim' = true
    ∧ precomputedFrames sim' = precomputedFrames sim
    ∧ fillStyle (ctx sim') = "red"
    ∧ last (surface (ctx sim')) = Some (FillText (MsgMakeSure (file dataset)) 20 110
                                           "red" "16px Arial")
    ∧ precomputedDatasets (run [FetchOk dataset csvText; Timer dataset 0] st)
      = precomputedDatasets st
    ∧ loadedDatasets (run [FetchOk dataset csvText; Timer dataset 0] st)
      = loadedDatasets st
    ∧ isPlaying (run [FetchOk dataset csvText; Timer dataset 0] st) = isPlaying st.
Proof.
  intros Hsim Hparse Hne Hall.
  set (sim2 := precomputeStart (withData rows [None] sim)).
  assert (step (FetchOk dataset csvText) st = setSim (id dataset) sim2 st) as Hfetch.
  { cbn [step]. rewrite Hsim. unfold loadDataFetched.
    by rewrite Hparse, (extractTimePoints_no_time rows Hne Hall). }
  assert (step (Timer dataset 0) (setSim (id dataset) sim2 st)
          = setSim (id dataset) (loadDataError dataset toFixedError sim2)
              (setSim (id dataset) sim2 st)) as Htimer.
  { cbn [step].
    change (simulations (setSim (id dataset) sim2 st))
      with (<[id dataset := sim2]> (simulations st)).
    by rewrite lookup_insert_eq. }
  rewrite !run_cons, Hfetch, Htimer. cbn [run foldl].
  exists (loadDataError dataset toFixedError sim2).
  split; [apply lookup_insert_eq|]. repeat (split; [done|]).
  split; [|done]. simpl. by rewrite last_snoc.
Qed.

Lemma file_without_time_column_witness :
  ∃ sim',
    simulations (run [FetchOk noneDataset ("t,x" ++ String "010" "1,2");
                      Timer noneDataset 0] (startState "Play")) !! "none"
    = Some sim'
    ∧ isReady sim' = false ∧ isPrecomputing sim' = true.
Proof.
  destruct (file_without_time_column_never_ready noneDataset
              ("t,x" ++ String "010" "1,2")
              (default [] (parseCSV ("t,x" ++ String "010" "1,2")))
              (startState "Play") (streamOf "none" (startState "Play")))
    as (sim' & Hsim' & _ & Hready & Hpre & _).
  - vm_compute. reflexivity.
  - vm_compute. reflexivity.
  - vm_compute. discriminate.
  - vm_compute. repeat constructor.
  - exists sim'. split; [exact Hsim'|]. split; [|exact Hpre].
    rewrite Hready. vm_compute. reflexivity.
Defined.

(** X8.  A file with a header line only, or no text at all: the timeline is
    empty, so the stream counts as precomputed and ready at once, without
    any frame; a wake-up that advances the other streams leaves it as it
    is. *)
Theorem file_without_records_is_ready_at_once
    (dataset : Dataset) (csvText : string) (st : State) (sim : Sim) :
  simulations st !! id dataset = Some sim →
  parseCSV csvText = Some [] →
  ∃ sim',
    simulations (step (FetchOk dataset csvText) st) !! id dataset = Some sim'
    ∧ isReady sim' = true
    ∧ isPrecomputing sim' = false
    ∧ timePoints sim' = []
    ∧ precomputedFrames sim' = precomputedFrames sim
    ∧ surface (ctx sim')
      = match frameAtIndex (precomputedFrames sim) 0 with
        | Some img => [DrawImage img]
        | None => []
        end
    ∧ precomputedDatasets (step (FetchOk dataset csvText) st)
      = (precomputedDatasets st + 1)%Z
    ∧ (precomputedFrames sim = [] → advanceSim sim' = sim').
Proof.
  intros Hsim Hparse. cbn [step]. rewrite Hsim.
  unfold loadDataFetched. rewrite Hparse.
  change (extractTimePoints []) with (@nil value).
  cbn [precomputeStart withProgress withCtx withData timePoints length Nat.ltb
       Nat.leb].
  match goal with |- context [precomputeFinish ?d ?s ?t] =>
    destruct (precomputeFinish_globals d s t) as (_ & Hcount & _);
    destruct (precomputeFinish_loaded d s t) as (_ & Hsims);
    rewrite Hsims, Hcount; exists (finishSim s)
  end.
  split; [apply lookup_insert_eq|]. repeat (split; [done|]).
  split.
  - unfold finishSim. simpl. by destruct (frameAtIndex (precomputedFrames sim) 0).
  - split; [done|]. intros Hframes. unfold advanceSim. simpl. by rewrite Hframes.
Qed.

Lemma file_without_records_witness :
  ∃ sim',
    simulations (step (FetchOk noneDataset "time,x") (startState "Play")) !! "none"
    = Some sim'
    ∧ isReady sim' = true ∧ timePoints sim' = [].
Proof.
  destruct (file_without_records_is_ready_at_once noneDataset "time,x"
              (startState "Play") (streamOf "none" (startState "Play")))
    as (sim' & Hsim' & Hready & _ & Htp & _);
    [vm_compute; reflexivity | vm_compute; reflexivity |].
  exists sim'. split; [exact Hsim'|]. split; [exact Hready | exact Htp].
Defined.

(** ** What holds in every state of a session *)

Lemma precomputeChunkFrames_progress (js : list nat) (i : nat) :
  ∀ sim, precomputeProgress (precomputeChunkFrames js i sim).1
         = precomputeProgress sim
         ∧ isReady (precomputeChunkFrames js i sim).1 = isReady sim
         ∧ currentTimeIndex (precomputeChunkFrames js i sim).1 = currentTimeIndex sim.
Proof.
  induction js as [|j rest IH]; intros sim; simpl; [done|].
  destruct (i + j <? length (timePoints sim))%nat; [|done].
  destruct (mjoin (timePoints sim !! (i + j)%nat)); [|done].
  destruct (IH (withFrames (storeFrame (precomputedFrames sim) (i + j)
                              (renderFrame sim n)) sim)) as (-> & -> & ->).
  done.
Qed.

(** The forms a callback's effect can take. *)
Lemma step_shape (e : Event) (st : State) :
  step e st = st
  ∨ (∃ datasetId sim sim',
       simulations st !! datasetId = Some sim
       ∧ ((0 <= precomputeProgress sim <= 100)%Z →
          (0 <= precomputeProgress sim' <= 100)%Z)
       ∧ (step e st = setSim datasetId sim' st
          ∨ step e st = precomputeFinish datasetId sim' st))
  ∨ (∃ timestamp, step e st = animateAll timestamp st)
  ∨ step e st = clickPlayPause st
  ∨ step e st = clickReset st.
Proof.
  destruct e as [dataset csvText|dataset msg|dataset i|timestamp| |]; cbn [step].
  - destruct (simulations st !! id dataset) as [sim|] eqn:Hsim; [|by left].
    right; left. unfold loadDataFetched.
    destruct (parseCSV csvText) as [parsedData|].
    + eexists _, sim, _. split; [done|].
      destruct (0 <? _)%nat; (split; [|by eauto]); simpl; lia.
    + eexists _, sim, _. split; [done|]. split; [|by left]. done.
  - destruct (simulations st !! id dataset) as [sim|] eqn:Hsim; [|by left].
    right; left. eexists _, sim, _. split; [done|]. split; [|by left]. done.
  - destruct (simulations st !! id dataset) as [sim|] eqn:Hsim; [|by left].
    destruct (i <? length (timePoints sim))%nat; [|by left].
    right; left. unfold precomputeChunk.
    destruct (precomputeChunkFrames_progress (seq 0 chunkSize) i sim) as (Hp & _).
    destruct (precomputeChunkFrames (seq 0 chunkSize) i sim) as [sim1 [|]];
      simpl in Hp.
    + eexists _, sim, _. split; [done|]. split; [|by left]. simpl. by rewrite Hp.
    + eexists _, sim, _. split; [done|].
      split; [|destruct (_ <? _)%nat; eauto].
      intros _. simpl.
      apply (progress_bounds i (length (timePoints sim1))).
  - right; right; left. by eexists.
  - by right; right; right; left.
  - by right; right; right; right.
Qed.

Lemma invariant_setSim (label datasetId : string) (sim sim' : Sim) (st : State) :
  sessionInvariant label st →
  simulations st !! datasetId = Some sim →
  (0 <= precomputeProgress sim' <= 100)%Z →
  sessionInvariant label (setSim datasetId sim' st).
Proof.
  intros (Htotal & Hloaded & Hpos & Hstarted & Hdom & Hbutton & Hprogress) Hsim Hp.
  repeat (split; [done|]). split; [|split; [done|]].
  - transitivity (dom (simulations st)); [|exact Hdom].
    unfold setSim. cbn [simulations withSimulations]. rewrite dom_insert_L.
    apply elem_of_dom_2 in Hsim. set_solver.
  - unfold setSim. simpl. by apply map_Forall_insert_2.
Qed.

Lemma precomputeFinish_button (datasetId : string) (sim : Sim) (st : State) :
  animationStarted (precomputeFinish datasetId sim st)
  = (if (loadedDatasets st + 1 =? totalDatasetsToLoad st)%Z
        && negb (animationStarted st)
     then true else animationStarted st)
  ∧ playPauseText (precomputeFinish datasetId sim st)
    = (if (precomputedDatasets st + 1 =? totalDatasetsToLoad st)%Z
       then "Pause" else playPauseText st).
Proof.
  unfold precomputeFinish, loadDataDone, markPrecomputed, setSim. simpl.
  destruct (precomputedDatasets st + 1 =? totalDatasetsToLoad st)%Z; simpl;
    by destruct ((loadedDatasets st + 1 =? totalDatasetsToLoad st)%Z
                 && negb (animationStarted st)).
Qed.

Lemma invariant_precomputeFinish (label datasetId : string) (sim sim' : Sim)
    (st : State) :
  sessionInvariant label st →
  simulations st !! datasetId = Some sim →
  (0 <= precomputeProgress sim' <= 100)%Z →
  sessionInvariant label (precomputeFinish datasetId sim' st).
Proof.
  intros (Htotal & Hloaded & Hpos & Hstarted & Hdom & Hbutton & Hprogress) Hsim Hp.
  destruct (precomputeFinish_globals datasetId sim' st) as (Ht & Hc & Hplay).
  destruct (precomputeFinish_loaded datasetId sim' st) as (Hl & Hsims).
  destruct (precomputeFinish_button datasetId sim' st) as (Hs & Hb).
  split; [by rewrite Ht|]. split; [by rewrite Hl, Hc, Hloaded|].
  split; [rewrite Hc; lia|]. split; [|split; [|split]].
  - rewrite Hs, Hl, Hstarted, Htotal.
    destruct (Z.eqb_spec (loadedDatasets st + 1) 4),
             (Z.leb_spec 4 (loadedDatasets st)),
             (Z.leb_spec 4 (loadedDatasets st + 1)); simpl; first [done | lia].
  - transitivity (dom (simulations st)); [|exact Hdom].
    rewrite Hsims, dom_insert_L. apply elem_of_dom_2 in Hsim. set_solver.
  - rewrite Hb, Hplay.
    destruct (precomputedDatasets st + 1 =? totalDatasetsToLoad st)%Z; auto.
  - rewrite Hsims. apply map_Forall_insert_2; [|done]. by unfold finishSim.
Qed.

Lemma invariant_animateAll (label : string) (timestamp : Q) (st : State) :
  sessionInvariant label st → sessionInvariant label (animateAll timestamp st).
Proof.
  intros (Htotal & Hloaded & Hpos & Hstarted & Hdom & Hbutton & Hprogress).
  assert (map_Forall (fun _ sim => (0 <= precomputeProgress sim <= 100)%Z)
            (advanceSim <$> simulations st)) as Hadvance.
  { apply map_Forall_fmap. eapply map_Forall_impl; [exact Hprogress|].
    intros k sim Hp. simpl. unfold advanceSim. by destruct (0 <? _)%nat. }
  assert (map_Forall (fun _ sim => (0 <= precomputeProgress sim <= 100)%Z)
            (showProgress <$> simulations st)) as Hshow.
  { apply map_Forall_fmap. eapply map_Forall_impl; [exact Hprogress|].
    intros k sim Hp. simpl. unfold showProgress. by destruct (isPrecomputing sim). }
  unfold animateAll, startClock.
  repeat match goal with |- context [if ?c then _ else _] => destruct c end;
    unfold sessionInvariant; simpl; rewrite ?dom_fmap_L; done.
Qed.

Lemma invariant_clicks (label : string) (st : State) :
  sessionInvariant label st →
  sessionInvariant label (clickPlayPause st)
  ∧ sessionInvariant label (clickReset st).
Proof.
  intros (Htotal & Hloaded & Hpos & Hstarted & Hdom & Hbutton & Hprogress).
  split.
  - unfold sessionInvariant, clickPlayPause. simpl.
    repeat (split; [done|]). split; [|done]. right. by destruct (isPlaying st).
  - unfold sessionInvariant, clickReset. simpl. rewrite dom_fmap_L.
    repeat (split; [done|]).
    apply map_Forall_fmap. eapply map_Forall_impl; [exact Hprogress|].
    intros k sim Hp. simpl. by destruct (resetSim_fields sim) as (_&_&_&_&_&->&_).
Qed.

Lemma invariant_step (label : string) (e : Event) (st : State) :
  sessionInvariant label st → sessionInvariant label (step e st).
Proof.
  intros Hinv.
  destruct (step_shape e st)
    as [->|[(k & sim & sim' & Hsim & Hp & [->| ->])|[[ts ->]|[->| ->]]]].
  - done.
  - eapply invariant_setSim; [done | done |]. apply Hp.
    destruct Hinv as (_&_&_&_&_&_&Hprogress). by apply (Hprogress k).
  - eapply invariant_precomputeFinish; [done | done |]. apply Hp.
    destruct Hinv as (_&_&_&_&_&_&Hprogress). by apply (Hprogress k).
  - by apply invariant_animateAll.
  - by apply invariant_clicks.
  - by apply invariant_clicks.
Qed.

Lemma invariant_start (label : string) : sessionInvariant label (startState label).
Proof.
  split; [done|]. split; [done|]. split; [done|]. split; [done|].
  split; [|split; [by left|]].
  - unfold startState, initAllSimulations. simpl.
    rewrite !dom_insert_L, dom_empty_L. set_solver.
  - unfold startState, initAllSimulations. simpl.
    repeat (apply map_Forall_insert_2; [done|]). apply map_Forall_empty.
Qed.

(** X9.  Throughout a session, whatever callbacks run and in whatever order:
    the streams are the four configured ones; the two counters are equal
    and the animation loop has been started exactly when they have reached
    four; the button reads Pause or Play according to the play flag as
    soon as either a click or the automatic start has written it; and each
    stream's percentage is between 0 and 100. *)
Theorem session_invariant_holds (label : string) (events : list Event) :
  sessionInvariant label (run events (startState label)).
Proof.
  assert (∀ st, sessionInvariant label st → sessionInvariant label (run events st))
    as Hrun.
  { induction events as [|e rest IH]; intros st Hinv; [done|].
    rewrite run_cons. by apply IH, invariant_step. }
  apply Hrun, invariant_start.
Qed.

(** ** A stream that is not ready holds all of them back *)

Lemma loadDataError_fields (dataset : Dataset) (msg : string) (sim : Sim) :
  isReady (loadDataError dataset msg sim) = isReady sim
  ∧ currentTimeIndex (loadDataError dataset msg sim) = currentTimeIndex sim.
Proof. done. Qed.

Lemma showProgress_ready (sim : Sim) : isReady (showProgress sim) = isReady sim.
Proof. unfold showProgress. by destruct (isPrecomputing sim). Qed.

(** How a callback other than a fetch result or a timer acts on a stream
    while some stream is not ready. *)
Lemma waiting_step (e : Event) (st : State) (datasetId : string) (sim : Sim) :
  isLoadingEvent e = false →
  allReady (simulations st) = false →
  simulations st !! datasetId = Some sim →
  ∃ sim',
    simulations (step e st) !! datasetId = Some sim'
    ∧ isReady sim' = isReady sim
    ∧ (currentTimeIndex sim' = currentTimeIndex sim
       ∨ currentTimeIndex sim' = Tick 0).
Proof.
  intros Hkind Hwaiting Hsim.
  destruct e as [| dataset msg | | timestamp | |]; try done; cbn [step].
  - destruct (simulations st !! id dataset) as [failed|] eqn:Hfailed; [|by eauto].
    unfold setSim. cbn [simulations withSimulations].
    destruct (decide (id dataset = datasetId)) as [<-|Hne].
    + rewrite lookup_insert_eq. eexists. split; [done|].
      rewrite Hsim in Hfailed. injection Hfailed as <-. by split; [|left].
    + rewrite lookup_insert_ne by done. by eauto.
  - rewrite (animateAll_waiting _ _ Hwaiting), lookup_fmap, Hsim.
    eexists. split; [done|].
    split; [apply showProgress_ready | left; apply showProgress_tick].
  - by eauto.
  - unfold clickReset. cbn [simulations withSimulations].
    rewrite lookup_fmap, Hsim. eexists. split; [done|].
    destruct (resetSim_fields sim) as (Htick & _ & _ & _ & _ & _ & Hready & _).
    by split; [|right].
Qed.

Lemma allReady_true (sims : gmap string Sim) (datasetId : string) (sim : Sim) :
  allReady sims = true → sims !! datasetId = Some sim → isReady sim = true.
Proof.
  unfold allReady. intros Hall%bool_decide_eq_true Hsim.
  by apply (Hall datasetId sim).
Qed.

(** X10.  While a stream is not ready and no fetch result or timer arrives (its
    load has failed, say), nothing plays: after any number of wake-ups and
    clicks every stream is at the tick it was at, or at tick 0 if reset
    was clicked, and the unready stream is still not ready. *)
Theorem unready_stream_blocks_playback
    (events : list Event) (st : State) (waitingId : string) (waiting : Sim)
    (datasetId : string) (sim : Sim) :
  Forall (fun e => isLoadingEvent e = false) events →
  simulations st !! waitingId = Some waiting →
  isReady waiting = false →
  simulations st !! datasetId = Some sim →
  allReady (simulations (run events st)) = false
  ∧ ∃ sim',
      simulations (run events st) !! datasetId = Some sim'
      ∧ isReady sim' = isReady sim
      ∧ (currentTimeIndex sim' = currentTimeIndex sim
         ∨ currentTimeIndex sim' = Tick 0).
Proof.
  intros Hevents. revert st waiting sim.
  induction Hevents as [|e rest He _ IH]; intros st waiting sim Hwaiting Hunready Hsim.
  - change (run [] st) with st.
    split; [exact (allReady_false _ _ _ Hwaiting Hunready)|]. by eauto.
  - rewrite run_cons.
    pose proof (allReady_false _ _ _ Hwaiting Hunready) as Hblocked.
    destruct (waiting_step e st waitingId waiting He Hblocked Hwaiting)
      as (waiting' & Hwaiting' & Hready' & _).
    destruct (waiting_step e st datasetId sim He Hblocked Hsim)
      as (sim1 & Hsim1 & Hready1 & Htick1).
    destruct (IH (step e st) waiting' sim1 Hwaiting' ltac:(congruence) Hsim1)
      as (Hstill & sim' & Hsim' & Hready & Htick).
    split; [done|]. exists sim'. split; [done|]. split; [congruence|].
    destruct Htick as [->| ->]; [done | by right].
Qed.

Lemma unready_stream_blocks_playback_witness :
  allReady
    (simulations
       (run [FetchFailed visualco2Dataset "Failed to load data: 404 Not Found";
             ClickPlayPause; AnimationFrame 1000; AnimationFrame 1040]
          waitingState))
  = false.
Proof.
  apply (unready_stream_blocks_playback
           [FetchFailed visualco2Dataset "Failed to load data: 404 Not Found";
            ClickPlayPause; AnimationFrame 1000; AnimationFrame 1040]
           waitingState "visualco2" (streamOf "visualco2" waitingState)
           "none" (streamOf "none" waitingState)).
  - repeat constructor.
  - vm_compute. reflexivity.
  - vm_compute. reflexivity.
  - vm_compute. reflexivity.
Defined.

(** ** Pausing *)

Lemma animateAll_idle (timestamp : Q) (st : State) :
  isPlaying st = false → allReady (simulations st) = true →
  animateAll timestamp st = startClock timestamp st.
Proof.
  intros Hpaused Hready. unfold animateAll.
  assert (isPlaying (startClock timestamp st) = false) as ->.
  { unfold startClock. by destruct (Qeq_bool _ _). }
  assert (simulations (startClock timestamp st) = simulations st) as ->.
  { unfold startClock. by destruct (Qeq_bool _ _). }
  by rewrite Hready.
Qed.

Lemma paused_wake_ups (timestamps : list Q) :
  ∀ st,
    isPlaying st = false → allReady (simulations st) = true →
    simulations (run (AnimationFrame <$> timestamps) st) = simulations st
    ∧ isPlaying (run (AnimationFrame <$> timestamps) st) = false
    ∧ (Qeq_bool (lastFrameTime st) 0 = false →
       lastFrameTime (run (AnimationFrame <$> timestamps) st) = lastFrameTime st).
Proof.
  induction timestamps as [|timestamp rest IH]; intros st Hpaused Hready; [done|].
  rewrite fmap_cons, run_cons. cbn [step].
  rewrite (animateAll_idle _ _ Hpaused Hready).
  assert (isPlaying (startClock timestamp st) = false) as Hpaused'.
  { unfold startClock. by destruct (Qeq_bool _ _). }
  assert (simulations (startClock timestamp st) = simulations st) as Hsims.
  { unfold startClock. by destruct (Qeq_bool _ _). }
  destruct (IH (startClock timestamp st) Hpaused' ltac:(by rewrite Hsims))
    as (Hs & Hp & Ht).
  split; [by rewrite Hs|]. split; [done|].
  intros Hnonzero. unfold startClock in *. rewrite Hnonzero in *. by apply Ht.
Qed.

(** X11.  While paused with every stream ready, wake-ups change no stream,
    however many there are, and leave the reference time alone once it has
    been set.  So the first wake-up after the click that resumes, an
    interval or more after that reference time, advances every stream by
    one tick and no more, however long the pause was. *)
Theorem pause_holds_and_resume_advances_one_tick
    (timestamps : list Q) (timestamp : Q) (st : State) :
  isPlaying st = false →
  allReady (simulations st) = true →
  Qeq_bool (lastFrameTime st) 0 = false →
  (FRAME_INTERVAL <= timestamp - lastFrameTime st)%Q →
  simulations (run (AnimationFrame <$> timestamps) st) = simulations st
  ∧ isPlaying (run (AnimationFrame <$> timestamps) st) = false
  ∧ lastFrameTime (run (AnimationFrame <$> timestamps) st) = lastFrameTime st
  ∧ simulations
      (run ((AnimationFrame <$> timestamps)
            ++ [ClickPlayPause; AnimationFrame timestamp]) st)
    = advanceSim <$> simulations st.
Proof.
  intros Hpaused Hready Hnonzero Hdelta.
  destruct (paused_wake_ups timestamps st Hpaused Hready) as (Hs & Hp & Ht).
  specialize (Ht Hnonzero).
  split; [done|]. split; [done|]. split; [done|].
  unfold run at 1. rewrite foldl_app. fold (run (AnimationFrame <$> timestamps) st).
  set (st1 := run (AnimationFrame <$> timestamps) st) in *.
  cbn [foldl step].
  assert (startClock timestamp (clickPlayPause st1) = clickPlayPause st1) as Hclock.
  { unfold startClock.
    change (lastFrameTime (clickPlayPause st1)) with (lastFrameTime st1).
    by rewrite Ht, Hnonzero. }
  rewrite animateAll_advancing.
  - rewrite Hclock. cbn [simulations withSimulations withLastFrameTime].
    change (simulations (clickPlayPause st1)) with (simulations st1).
    by rewrite Hs.
  - change (isPlaying (clickPlayPause st1)) with (negb (isPlaying st1)).
    by rewrite Hp.
  - change (simulations (clickPlayPause st1)) with (simulations st1).
    by rewrite Hs.
  - unfold deltaTimeAt. rewrite Hclock.
    change (lastFrameTime (clickPlayPause st1)) with (lastFrameTime st1).
    by rewrite Ht.
Qed.

Lemma pause_holds_and_resume_witness :
  simulations
    (run ((AnimationFrame <$> [2000%Q; 3000%Q; 4000%Q])
          ++ [ClickPlayPause; AnimationFrame 5000]) pausedState)
  = advanceSim <$> simulations pausedState.
Proof.
  apply (pause_holds_and_resume_advances_one_tick [2000%Q; 3000%Q; 4000%Q] 5000
           pausedState);
    [vm_compute; reflexivity | vm_compute; reflexivity | vm_compute; reflexivity
    | vm_compute; discriminate].
Defined.

(** ** Drawing *)

Lemma mapToCanvas_fraction (value inMin inMax : Q) :
  (inMin < inMax)%Q → (inMin <= value <= inMax)%Q →
  (0 <= (value - inMin) / (inMax - inMin) <= 1)%Q.
Proof.
  intros Hrange [Hlow Hhigh]. split.
  - apply Qle_shift_div_l; lra.
  - apply Qle_shift_div_r; lra.
Qed.

(** X12.  [mapToCanvas] sends the ends of the input range to the ends of the
    output range, keeps a value of the input range inside the output
    range, and keeps the order of values; with the output range reversed,
    as the single-stream player does for its upward [y] axis, the result
    is the mirror image. *)
Theorem mapToCanvas_maps_range_onto_range
    (value value' inMin inMax outMin outMax : Q) :
  (inMin < inMax)%Q →
  (mapToCanvas inMin inMin inMax outMin outMax == outMin)%Q
  ∧ (mapToCanvas inMax inMin inMax outMin outMax == outMax)%Q
  ∧ ((inMin <= value <= inMax)%Q → (outMin <= outMax)%Q →
     (outMin <= mapToCanvas value inMin inMax outMin outMax <= outMax)%Q)
  ∧ ((value <= value')%Q → (outMin <= outMax)%Q →
     (mapToCanvas value inMin inMax outMin outMax
      <= mapToCanvas value' inMin inMax outMin outMax)%Q)
  ∧ (mapToCanvas value inMin inMax outMax outMin
     == outMin + outMax - mapToCanvas value inMin inMax outMin outMax)%Q.
Proof.
  intros Hrange. unfold mapToCanvas.
  split; [field; lra|]. split; [field; lra|]. split; [|split; [|field; lra]].
  - intros Hvalue Hout.
    destruct (mapToCanvas_fraction value inMin inMax Hrange Hvalue) as [H0 H1].
    set (t := ((value - inMin) / (inMax - inMin))%Q) in *.
    assert (0 <= t * (outMax - outMin))%Q by (apply Qmult_le_0_compat; lra).
    assert (t * (outMax - outMin) <= 1 * (outMax - outMin))%Q
      by (apply Qmult_le_compat_r; lra).
    lra.
  - intros Hle Hout.
    assert ((value - inMin) / (inMax - inMin) <= (value' - inMin) / (inMax - inMin))%Q.
    { apply Qmult_le_compat_r; [lra|]. apply Qinv_le_0_compat. lra. }
    assert ((value - inMin) / (inMax - inMin) * (outMax - outMin)
            <= (value' - inMin) / (inMax - inMin) * (outMax - outMin))%Q
      by (apply Qmult_le_compat_r; lra).
    lra.
Qed.

Lemma mapToCanvas_maps_range_witness :
  (0 <= mapToCanvas (1 # 2) (-1) 1 0 600 <= 600)%Q
  ∧ (mapToCanvas (1 # 2) (-1) 1 600 0 == 0 + 600 - mapToCanvas (1 # 2) (-1) 1 0 600)%Q.
Proof.
  destruct (mapToCanvas_maps_range_onto_range (1 # 2) 1 (-1) 1 0 600)
    as (_ & _ & Hin & _ & Hflip); [reflexivity|].
  split; [apply Hin; [split|]; discriminate | exact Hflip].
Defined.

Lemma floor_in_byte (x : Q) :
  (0 <= x <= 255)%Q → (0 <= Qfloor x <= 255)%Z.
Proof.
  intros [Hlow Hhigh]. split.
  - change 0%Z with (Qfloor 0). by apply Qfloor_resp_le.
  - change 255%Z with (Qfloor 255). by apply Qfloor_resp_le.
Qed.

Lemma normalizedSpeed_range (q : Q) :
  (0 <= q)%Q →
  ∃ n, numMin (Single.divideBy MAX_SPEED_COLOR (Fin q)) (Fin 1) = Fin n
       ∧ (0 <= n <= 1)%Q
       ∧ ((MAX_SPEED_COLOR <= q)%Q → (n == 1)%Q).
Proof.
  intros Hq. simpl.
  assert (0 < MAX_SPEED_COLOR)%Q as Hmax by reflexivity.
  assert (0 <= q / MAX_SPEED_COLOR)%Q as Hlow by (apply Qle_shift_div_l; lra).
  destruct (negb (Qle_bool (q / MAX_SPEED_COLOR) 1)) eqn:Hcmp.
  - exists 1%Q. split; [done|]. split; [lra | done].
  - apply Qlt_as_bool_false in Hcmp. exists (q / MAX_SPEED_COLOR)%Q.
    split; [done|]. split; [lra|]. intros Hfast.
    assert (1 <= q / MAX_SPEED_COLOR)%Q by (apply Qle_shift_div_l; lra). lra.
Qed.

(** X13.  For a speed that is a number and not negative, each colour channel is
    a whole number from 0 to 255, and from the reference speed 1.5 upward
    the colour is pure red.  A speed that is missing or [NaN] gives three
    [NaN] channels. *)
Theorem getSpeedColor_channels_in_range (q : Q) :
  (0 <= q)%Q →
  (∃ r g b : Z,
     getSpeedColor (Some (Fin q))
     = (Fin (inject_Z r), Fin (inject_Z g), Fin (inject_Z b))
     ∧ (0 <= r <= 255)%Z ∧ (0 <= g <= 255)%Z ∧ (0 <= b <= 255)%Z
     ∧ ((MAX_SPEED_COLOR <= q)%Q → r = 255%Z ∧ g = 0%Z ∧ b = 0%Z))
  ∧ getSpeedColor None = (NaN, NaN, NaN)
  ∧ getSpeedColor (Some NaN) = (NaN, NaN, NaN).
Proof.
  intros Hq. split; [|done].
  destruct (normalizedSpeed_range q Hq) as (n & Hn & [Hlow Hhigh] & Hfast).
  unfold getSpeedColor. cbv zeta.
  change (Single.toNumber (Some (Fin q))) with (Fin q). rewrite Hn.
  cbn [scaleBy numSub Single.numAbs numFloor].
  eexists _, _, _. split; [reflexivity|].
  assert (0 <= Qabs (2 * n - 1) <= 1)%Q as [Habs0 Habs1].
  { split; [apply Qabs_nonneg|]. apply Qabs_Qle_condition. lra. }
  split; [apply floor_in_byte; lra|]. split; [apply floor_in_byte; lra|].
  split; [apply floor_in_byte; lra|].
  intros Hmax. specialize (Hfast Hmax).
  assert (Qabs (2 * n - 1) == 1)%Q as Habs.
  { rewrite Hfast. reflexivity. }
  split; [|split].
  - rewrite (Qfloor_comp (255 * n) 255); [done | lra].
  - rewrite (Qfloor_comp (255 * (1 - Qabs (2 * n - 1))) 0); [done | lra].
  - rewrite (Qfloor_comp (255 * (1 - n)) 0); [done | lra].
Qed.

Lemma getSpeedColor_channels_witness :
  ∃ r g b : Z,
    getSpeedColor (Some (Fin (3 # 4)))
    = (Fin (inject_Z r), Fin (inject_Z g), Fin (inject_Z b))
    ∧ (0 <= r <= 255)%Z ∧ (0 <= g <= 255)%Z ∧ (0 <= b <= 255)%Z.
Proof.
  destruct (getSpeedColor_channels_in_range (3 # 4)) as [(r & g & b & H) _];
    [discriminate|].
  exists r, g, b. destruct H as (? & ? & ? & ? & _). done.
Defined.

Example getSpeedColor_samples :
  getSpeedColor (Some (Fin 0)) = (Fin 0, Fin 0, Fin 255)
  ∧ getSpeedColor (Some (Fin (3 # 4))) = (Fin 127, Fin 255, Fin 127)
  ∧ getSpeedColor (Some (Fin 2)) = (Fin 255, Fin 0, Fin 0)
  ∧ getSpeedColor (Some PosInf) = (Fin 255, Fin 0, Fin 0).
Proof. repeat split; reflexivity. Qed.

Section Markers.

Variables (largest shrink : Q) (cutoff : nat).
Hypothesis cutoff_spec :
  ∀ index : nat,
    Qle_bool (largest - inject_Z (Z.of_nat index) * shrink) 0 = (cutoff <=? index)%nat.

Lemma drawTrailFrom_all (trailData : list row) :
  ∀ index, (index + length trailData <= cutoff)%nat →
    drawTrailFrom largest shrink index trailData
    = imap (fun k position => markerAt largest shrink (index + k) position) trailData.
Proof.
  induction trailData as [|position rest IH]; intros index Hlen; [done|].
  simpl in *. rewrite cutoff_spec, (proj2 (Nat.leb_gt _ _)) by lia.
  rewrite Nat.add_0_r. unfold markerAt at 1. f_equal.
  rewrite IH by lia. apply imap_ext. intros k p _. simpl. f_equal. lia.
Qed.

Lemma drawTrailFrom_none (trailData : list row) :
  ∀ index, (cutoff <= index)%nat →
    drawTrailFrom largest shrink index trailData = [].
Proof.
  induction trailData as [|position rest IH]; intros index Hle; [done|].
  simpl. rewrite cutoff_spec, (proj2 (Nat.leb_le _ _)) by lia. apply IH. lia.
Qed.

Lemma drawTrailFrom_positions (trailData : list row) :
  ∀ index,
    markerPosition <$> drawTrailFrom largest shrink index trailData
    = take (cutoff - index) trailData.
Proof.
  induction trailData as [|position rest IH]; intros index.
  - by rewrite take_nil.
  - simpl. rewrite cutoff_spec.
    destruct (Nat.leb_spec cutoff index) as [Hle|Hlt].
    + rewrite drawTrailFrom_none by lia.
      by replace (cutoff - index)%nat with 0%nat by lia.
    + replace (cutoff - index)%nat with (S (cutoff - S index)) by lia.
      simpl. by rewrite IH.
Qed.

End Markers.

Lemma drawTrail_cutoff (index : nat) :
  Qle_bool (4 - inject_Z (Z.of_nat index) * (6 # 10)) 0 = (7 <=? index)%nat.
Proof.
  destruct (Nat.leb_spec 7 index) as [Hle|Hlt].
  - apply Qle_bool_iff. unfold Qle. simpl. lia.
  - destruct (Qle_bool _ _) eqn:Hb; [|done].
    apply Qle_bool_iff in Hb. unfold Qle in Hb. simpl in Hb. lia.
Qed.

Lemma singleDrawTrail_cutoff (index : nat) :
  Qle_bool (8 - inject_Z (Z.of_nat index) * (7 # 10)) 0 = (12 <=? index)%nat.
Proof.
  destruct (Nat.leb_spec 12 index) as [Hle|Hlt].
  - apply Qle_bool_iff. unfold Qle. simpl. lia.
  - destruct (Qle_bool _ _) eqn:Hb; [|done].
    apply Qle_bool_iff in Hb. unfold Qle in Hb. simpl in Hb. lia.
Qed.

(** X14.  [drawTrail] draws the first seven entries of what it is given (the
    first twelve in the single-stream player) and omits the rest, whose
    size would be zero or less.  A trail from [getTrailData] is shorter
    than that, so each of its entries is drawn: the entry at position [k]
    as a circle of size [4 - 0.6 k] (of size [8 - 0.7 k]) in the colour of
    its speed. *)
Theorem every_entry_of_a_trail_is_drawn
    (trailData : list row) (currentMosquito : row) (sim : Sim)
    (st : Single.State) :
  markerPosition <$> drawTrail trailData = take 7 trailData
  ∧ markerPosition <$> singleDrawTrail trailData = take 12 trailData
  ∧ drawTrail (getTrailData currentMosquito sim)
    = imap (markerAt 4 (6 # 10)) (getTrailData currentMosquito sim)
  ∧ singleDrawTrail (Single.getTrailData currentMosquito st)
    = imap (markerAt 8 (7 # 10)) (Single.getTrailData currentMosquito st).
Proof.
  split; [|split; [|split]].
  - apply (drawTrailFrom_positions 4 (6 # 10) 7 drawTrail_cutoff trailData 0).
  - apply (drawTrailFrom_positions 8 (7 # 10) 12 singleDrawTrail_cutoff trailData 0).
  - unfold drawTrail.
    rewrite (drawTrailFrom_all 4 (6 # 10) 7 drawTrail_cutoff); [done|].
    pose proof (scanTrail_length (indexOf (timePoints sim) (timeOf currentMosquito))
                  currentMosquito (timePoints sim) (mosquitoData sim) trailOffsets)
      as Hlen.
    unfold getTrailData. simpl in *. lia.
  - unfold singleDrawTrail.
    rewrite (drawTrailFrom_all 8 (7 # 10) 12 singleDrawTrail_cutoff); [done|].
    pose proof (scanTrail_length
                  (indexOf (Single.timePoints st) (timeOf currentMosquito))
                  currentMosquito (Single.timePoints st) (Single.mosquitoData st)
                  Single.trailOffsets) as Hlen.
    unfold Single.getTrailData. simpl in *. lia.
Qed.

(** ** The single-stream player *)

Lemma tickValue_defined (tp : list value) (z : Z) :
  Forall (fun v : value => v ≠ None) tp →
  (0 <= z < Z.of_nat (length tp))%Z →
  ∃ time, Single.tickValue tp (Tick z) = Some time.
Proof.
  intros Hdefined Hz. unfold Single.tickValue, valueAt.
  rewrite (proj2 (Z.ltb_ge _ _)) by lia.
  destruct (lookup_lt_is_Some_2 tp (Z.to_nat z) ltac:(lia)) as [v Hv].
  rewrite Hv. rewrite Forall_forall in Hdefined.
  pose proof (Hdefined v (list_elem_of_lookup_2 _ _ _ Hv)).
  destruct v as [time|]; [by exists time | done].
Qed.

Lemma nextTick_in_range (z : Z) (len : nat) :
  (0 <= z < Z.of_nat len)%Z →
  ∃ z', nextTick (Tick z) len = Tick z' ∧ (0 <= z' < Z.of_nat len)%Z.
Proof.
  intros Hz. destruct len as [|len]; [lia|].
  exists (Z.rem (z + 1) (Z.of_nat (S len))). split; [done|].
  rewrite Z.rem_mod_nonneg by lia. apply Z.mod_pos_bound. lia.
Qed.

Lemma animate_keeps_ready (timestamp : Q) (st : Single.State) :
  singleReady st →
  ∃ st', Single.animate timestamp st = Single.Returned st' ∧ singleReady st'.
Proof.
  intros (Hdefined & z & Hindex & Hz). unfold Single.animate.
  set (st1 := if Qeq_bool (Single.lastFrameTime st) 0
              then Single.withLastFrameTime timestamp st else st).
  assert (Single.timePoints st1 = Single.timePoints st
          ∧ Single.currentTimeIndex st1 = Single.currentTimeIndex st)
    as [Htp1 Hindex1] by (unfold st1; by destruct (Qeq_bool _ _)).
  assert (singleReady st1) as Hready1.
  { split; [by rewrite Htp1|]. exists z. by rewrite Hindex1, Htp1. }
  destruct (Single.isPlaying st1 && Qle_bool FRAME_INTERVAL _); [|by eauto].
  unfold Single.updateSimulation.
  cbn [Single.timePoints Single.currentTimeIndex Single.withLastFrameTime].
  rewrite Htp1, Hindex1, Hindex.
  destruct (tickValue_defined _ z Hdefined Hz) as [time ->].
  destruct (nextTick_in_range z _ Hz) as (z' & Hnext & Hz').
  rewrite Hnext.
  cbn [Single.timePoints Single.currentTimeIndex Single.withIndex
       Single.withLastFrameTime Single.lastDistributionUpdateTime].
  rewrite Htp1.
  destruct (tickValue_defined _ z' Hdefined Hz') as [time' ->].
  match goal with |- context [if ?c then _ else _] => destruct c end;
    eexists; (split; [reflexivity|]); split; simpl; rewrite ?Htp1; eauto.
Qed.

Lemma loaded_ready (csvText : string) :
  Single.timePoints (Single.loaded csvText Single.initialState) ≠ [] →
  singleReady (Single.loaded csvText Single.initialState).
Proof.
  unfold Single.loaded. destruct (parseCSV csvText) as [parsedData|]; [|done].
  cbn [Single.timePoints Single.currentTimeIndex Single.initialState].
  intros Hnonempty. split.
  - apply Forall_forall. intros v Hv ->.
    apply extractTimePoints_from_samples in Hv as (r & Hr & Htime).
    apply list_elem_of_In, filter_In in Hr as [_ Hgrid].
    apply onGrid_numeric in Hgrid. by rewrite <- Htime in Hgrid.
  - exists 0%Z. split; [done|].
    destruct (extractTimePoints _); [done | simpl; lia].
Qed.

(** X15.  In the single-stream player a file with at least one sample on the
    time grid never makes [animate] raise: after any wake-ups the index is
    a tick of the timeline and that tick has a time. *)
Theorem single_player_runs_on_any_gridded_file
    (csvText : string) (timestamps : list Q) :
  Single.timePoints (Single.loaded csvText Single.initialState) ≠ [] →
  ∃ st',
    singleWakeUps timestamps (Single.loaded csvText Single.initialState)
    = Single.Returned st'
    ∧ singleReady st'
    ∧ Single.timePoints st'
      = Single.timePoints (Single.loaded csvText Single.initialState).
Proof.
  intros Hnonempty. pose proof (loaded_ready csvText Hnonempty) as Hready.
  clear Hnonempty. revert Hready.
  generalize (Single.loaded csvText Single.initialState) as st.
  induction timestamps as [|timestamp rest IH]; intros st Hready; [by eauto|].
  simpl. destruct (animate_keeps_ready timestamp st Hready) as (st1 & Hanimate & Hready1).
  rewrite Hanimate. destruct (IH st1 Hready1) as (st' & Hrun & Hready' & Htp).
  exists st'. split; [done|]. split; [done|]. rewrite Htp.
  clear -Hanimate. unfold Single.animate, Single.updateSimulation in Hanimate.
  repeat match type of Hanimate with
         | context [if ?c then _ else _] => destruct c
         | context [match ?c with Some _ => _ | None => _ end] => destruct c
         end; by simplify_eq.
Qed.

Lemma single_player_runs_witness :
  ∃ st',
    singleWakeUps [1000%Q; 1020%Q; 1040%Q; 1060%Q]
      (Single.loaded fourTicks Single.initialState)
    = Single.Returned st'
    ∧ singleReady st'.
Proof.
  destruct (single_player_runs_on_any_gridded_file fourTicks
              [1000%Q; 1020%Q; 1040%Q; 1060%Q])
    as (st' & Hrun & Hready & _); [vm_compute; discriminate|].
  exists st'. split; [exact Hrun | exact Hready].
Defined.




(** ** The density view *)

Lemma window_compat (a b : value) (currentTime : number) :
  sameValueZero a b = true →
  numLe (Single.toNumber a) currentTime
  && numLt (numSub currentTime (Fin DISTRIBUTION_SAMPLE_INTERVAL)) (Single.toNumber a)
  = numLe (Single.toNumber b) currentTime
    && numLt (numSub currentTime (Fin DISTRIBUTION_SAMPLE_INTERVAL)) (Single.toNumber b).
Proof.
  destruct a as [[| |p|]|], b as [[| |q|]|]; simpl; try done.
  intros Heq%Qeq_bool_iff.
  destruct currentTime as [| |c|]; simpl; try done.
  by rewrite (Qleb_comp p q Heq c c (Qeq_refl c)),
       (Qleb_comp p q Heq _ _ (Qeq_refl (c - DISTRIBUTION_SAMPLE_INTERVAL)%Q)).
Qed.

(** X17.  The density view draws exactly the samples whose time lies in the
    sampling window, later than the current time minus 0.05 and no later
    than the current time: going through the timeline, as the code does,
    selects the same samples as comparing each sample's own time. *)
Theorem distribution_draws_the_samples_in_the_window
    (st : Single.State) (currentTime : number) (r : row) :
  Single.timePoints st = extractTimePoints (Single.mosquitoData st) →
  r ∈ distributionPositions st currentTime
  ↔ r ∈ Single.mosquitoData st
    ∧ numLe (Single.toNumber (timeOf r)) currentTime = true
    ∧ numLt (numSub currentTime (Fin DISTRIBUTION_SAMPLE_INTERVAL))
        (Single.toNumber (timeOf r)) = true.
Proof.
  intros Htp. unfold distributionPositions, sampleTimes.
  rewrite list_elem_of_In, filter_In, <- list_elem_of_In, existsb_exists.
  split.
  - intros [Hr (v & Hv & Heq)]. split; [done|].
    apply filter_In in Hv as [_ Hwindow].
    rewrite <- (window_compat _ _ currentTime Heq) in Hwindow.
    by apply andb_true_iff in Hwindow.
  - intros (Hr & Hle & Hlt). split; [done|].
    destruct (extractTimePoints_covers (Single.mosquitoData st) r Hr)
      as (v & Hv & Heq).
    exists v. rewrite sameValueZero_sym. split; [|done].
    apply filter_In. split; [by rewrite Htp, <- list_elem_of_In|].
    rewrite (window_compat _ _ currentTime Heq). by rewrite Hle, Hlt.
Qed.

Lemma distribution_draws_witness :
  sampleAt 1 3 ∈ distributionPositions
    {| Single.mosquitoData := [sampleAt 1 1; sampleAt 1 2; sampleAt 1 3];
       Single.timePoints := extractTimePoints [sampleAt 1 1; sampleAt 1 2; sampleAt 1 3];
       Single.currentTimeIndex := Tick 2; Single.isPlaying := true;
       Single.lastFrameTime := 0; Single.lastDistributionUpdateTime := None |}
    (Fin 3).
Proof.
  apply (distribution_draws_the_samples_in_the_window
           {| Single.mosquitoData := [sampleAt 1 1; sampleAt 1 2; sampleAt 1 3];
              Single.timePoints :=
                extractTimePoints [sampleAt 1 1; sampleAt 1 2; sampleAt 1 3];
              Single.currentTimeIndex := Tick 2; Single.isPlaying := true;
              Single.lastFrameTime := 0; Single.lastDistributionUpdateTime := None |}
           (Fin 3) (sampleAt 1 3)).
  - reflexivity.
  - split; [|split; vm_compute; reflexivity].
    apply list_elem_of_In. right. right. left. reflexivity.
Defined.
